(** * onnx_tf/backend.py: the ONNX to TensorFlow operator-translation layer

    A shallow embedding of [src/onnx_tf/backend.py].  Python functions are
    Rocq functions; a function that may raise returns a [result]; Python
    dictionaries are association lists with unique keys, iterated in
    insertion order; calls into TensorFlow and numpy (external
    collaborators) are recorded as invocation terms of type [tfval], the
    dataflow graph the backend builds.  Floating-point numbers are modelled
    by the rationals they denote.  A name is the string of its code points,
    each below 256 (ASCII and the Latin-1 supplement). *)

From Stdlib Require Import List String Ascii Bool Arith ZArith QArith Qabs Qround Lia Lqa.
From Stdlib Require Import Permutation DecimalString.
Import ListNotations.

Set Warnings "-register-all".
Local Open Scope list_scope.

(* ------------------------------------------------------------------ *)
(** ** Python exceptions and fallible computations *)

Inductive exn : Type :=
| KeyError
| ValueError
| TypeError
| IndexError
| AssertionError
| ValidationError.

Inductive result (A : Type) : Type :=
| Ok (a : A)
| Raise (e : exn).

Arguments Ok {A} a.
Arguments Raise {A} e.

Definition bind {A B : Type} (c : result A) (k : A -> result B) : result B :=
  match c with
  | Ok a => k a
  | Raise e => Raise e
  end.

Notation "x <- c ;; k" := (bind c (fun x => k))
  (at level 61, c at next level, right associativity).

(** A list comprehension whose element expression may raise: elements are
    evaluated left to right and the first exception propagates. *)
Fixpoint mapM {A B : Type} (f : A -> result B) (l : list A) : result (list B) :=
  match l with
  | [] => Ok []
  | a :: r => b <- f a ;; bs <- mapM f r ;; Ok (b :: bs)
  end.

(** [l[n]] for a non-negative literal index [n]. *)
Definition item_at {A : Type} (n : nat) (l : list A) : result A :=
  match nth_error l n with
  | Some a => Ok a
  | None => Raise IndexError
  end.

(* ------------------------------------------------------------------ *)
(** ** Python dictionaries keyed by strings

    Entries are kept in insertion order; assigning to a key that is already
    present replaces its value in place, as [d[k] = v] does. *)

Definition dict (V : Type) : Type := list (string * V).

Fixpoint dict_get {V : Type} (k : string) (d : dict V) : option V :=
  match d with
  | [] => None
  | (k', v) :: r => if String.eqb k k' then Some v else dict_get k r
  end.

(** [k in d] *)
Definition dict_mem {V : Type} (k : string) (d : dict V) : bool :=
  match dict_get k d with
  | Some _ => true
  | None => false
  end.

(** [d[k]] *)
Definition dict_getitem {V : Type} (k : string) (d : dict V) : result V :=
  match dict_get k d with
  | Some v => Ok v
  | None => Raise KeyError
  end.

(** [d[k] = v] *)
Fixpoint dict_set {V : Type} (k : string) (v : V) (d : dict V) : dict V :=
  match d with
  | [] => [(k, v)]
  | (k', v') :: r =>
      if String.eqb k k' then (k', v) :: r else (k', v') :: dict_set k v r
  end.

(** [del d[k]] when present *)
Fixpoint dict_remove {V : Type} (k : string) (d : dict V) : dict V :=
  match d with
  | [] => []
  | (k', v) :: r =>
      if String.eqb k k' then dict_remove k r else (k', v) :: dict_remove k r
  end.

(** [d.pop(k, None)]: the value removed (or [None]) and the dictionary left. *)
Definition dict_pop {V : Type} (k : string) (d : dict V) : option V * dict V :=
  (dict_get k d, dict_remove k d).

(** [d.keys()] and [d.items()], in iteration order. *)
Definition dict_keys {V : Type} (d : dict V) : list string := map fst d.
Definition dict_items {V : Type} (d : dict V) : list (string * V) := d.

(** [dict(pairs)]: later pairs overwrite earlier ones with the same key.
    [zip] is [combine]. *)
Definition dict_of_pairs {V : Type} (l : list (string * V)) : dict V :=
  fold_left (fun d kv => dict_set (fst kv) (snd kv) d) l [].

(* ------------------------------------------------------------------ *)
(** ** Values *)

(** [onnx_pb2.TensorProto], carried as an opaque message. *)
Record TensorProto : Type := mkTensorProto {
  tp_dims : list Z;
  tp_data_type : Z;
  tp_raw_data : string
}.

(** The values of the [DataType] enumeration of [TensorProto], as onnx.proto
    (a file of the ONNX library, not of this repository) numbers them. *)
Module DataType.
Definition FLOAT : Z := 1.
Definition UINT8 : Z := 2.
Definition INT8 : Z := 3.
Definition UINT16 : Z := 4.
Definition INT16 : Z := 5.
Definition INT32 : Z := 6.
Definition INT64 : Z := 7.
Definition STRING : Z := 8.
Definition BOOL : Z := 9.
Definition FLOAT16 : Z := 10.
Definition DOUBLE : Z := 11.
Definition UINT32 : Z := 12.
Definition UINT64 : Z := 13.
Definition COMPLEX64 : Z := 14.
Definition COMPLEX128 : Z := 15.
End DataType.

(** Runtime element types: the [tf.*] dtypes of [tensor_type_to_tf_type] and
    numpy's [np.int32], used by [handle_pad]. *)
Inductive dtype : Type :=
| tf_float32 | tf_uint8 | tf_int8 | tf_uint16 | tf_int16 | tf_int32
| tf_int64 | tf_bool | tf_float16 | tf_float64 | tf_complex64
| tf_complex128 | np_int32.

(** The Python objects an attribute holds, as [convertAttributeProto]
    returns them: a float, an int, a bytes string, a [TensorProto] message,
    or a list of floats, of ints or of bytes strings.  Number and list
    literals of the backend's code are written with the same constructors. *)
Inductive attrval : Type :=
| PyFloat (q : Q)
| PyInt (z : Z)
| PyBytes (s : string)
| PyProto (t : TensorProto)
| PyFloats (l : list Q)
| PyInts (l : list Z)
| PyStrings (l : list string).

(** The Python objects passed to runtime calls: the above, and what the
    backend adds to them ([None], booleans, element types). *)
Inductive pyval : Type :=
| PyNone
| PyBool (b : bool)
| PyDType (d : dtype)
| Obj (a : attrval).

(** Truth value of a list or a repeated field: non-empty. *)
Definition nonempty {A : Type} (l : list A) : bool :=
  match l with
  | [] => false
  | _ :: _ => true
  end.

(** [bool(x)]; a protobuf message defines neither [__bool__] nor [__len__]
    and is true. *)
Definition py_bool (x : attrval) : bool :=
  match x with
  | PyFloat q => negb (Qeq_bool q 0)
  | PyInt z => negb (Z.eqb z 0)
  | PyBytes s => negb (String.eqb s EmptyString)
  | PyProto _ => true
  | PyFloats l => nonempty l
  | PyInts l => nonempty l
  | PyStrings l => nonempty l
  end.

(** [len(x)] *)
Definition py_len (x : attrval) : result nat :=
  match x with
  | PyBytes s => Ok (String.length s)
  | PyFloats l => Ok (List.length l)
  | PyInts l => Ok (List.length l)
  | PyStrings l => Ok (List.length l)
  | PyFloat _ | PyInt _ | PyProto _ => Raise TypeError
  end.

(** [onnx_pb2.AttributeProto]: the optional scalar fields answer [HasField],
    the repeated fields are lists (empty when never set).  Fields of the
    message that the backend never reads are left out. *)
Record AttributeProto : Type := mkAttributeProto {
  arg_name : string;
  arg_f : option Q;
  arg_i : option Z;
  arg_s : option string;
  arg_t : option TensorProto;
  arg_floats : list Q;
  arg_ints : list Z;
  arg_strings : list string
}.

Definition convertAttributeProto (onnx_arg : AttributeProto) : result attrval :=
  match arg_f onnx_arg with
  | Some x => Ok (PyFloat x)
  | None =>
  match arg_i onnx_arg with
  | Some x => Ok (PyInt x)
  | None =>
  match arg_s onnx_arg with
  | Some x => Ok (PyBytes x)
  | None =>
  match arg_t onnx_arg with
  | Some x => Ok (PyProto x)
  | None =>
    if nonempty (arg_floats onnx_arg) then
      Ok (PyFloats (arg_floats onnx_arg))
    else if nonempty (arg_ints onnx_arg) then
      Ok (PyInts (arg_ints onnx_arg))
    else if nonempty (arg_strings onnx_arg) then
      Ok (PyStrings (arg_strings onnx_arg))
    else Raise ValueError
  end end end end.

(** [OnnxAttributes.from_onnx]: the loop [for arg in args: d[arg.name] = ...]
    with the dictionary built so far as accumulator. *)
Fixpoint from_onnx_loop (d : dict attrval) (args : list AttributeProto)
  : result (dict attrval) :=
  match args with
  | [] => Ok d
  | arg :: rest =>
      v <- convertAttributeProto arg ;;
      from_onnx_loop (dict_set (arg_name arg) v d) rest
  end.

Definition from_onnx (args : list AttributeProto) : result (dict attrval) :=
  from_onnx_loop [] args.

(** [onnx_pb2.NodeProto] *)
Record NodeProto : Type := mkNodeProto {
  np_name : string;
  np_op_type : string;
  np_attribute : list AttributeProto;
  np_input : list string;
  np_output : list string
}.

(** [OnnxNode]; [consumed_inputs = None] is Python's [None]. *)
Record OnnxNode : Type := mkOnnxNode {
  name : string;
  op_type : string;
  attrs : dict attrval;
  consumed_inputs : option attrval;
  inputs : list string;
  outputs : list string
}.

(** [OnnxNode.__init__] *)
Definition OnnxNode_init (node : NodeProto) : result OnnxNode :=
  d <- from_onnx (np_attribute node) ;;
  let (ci, d') := dict_pop "consumed_inputs" d in
  Ok {| name := np_name node;
        op_type := np_op_type node;
        attrs := d';
        consumed_inputs := ci;
        inputs := np_input node;
        outputs := np_output node |}.

(* ------------------------------------------------------------------ *)
(** ** The dataflow graph handed to the runtime *)

(** A numpy array or evaluated tensor: its shape and its elements in
    row-major order. *)
Record ndarray : Type := mkArray {
  shape : list nat;
  data : list Q
}.

(** The functions of TensorFlow and numpy the backend calls.  [tf_abs],
    [tf_add], [tf_subtract] and [tf_multiply] are also what the overloaded
    [abs(x)], [x + y], [x - y] and [x * y] build on tensors. *)
Inductive extfn : Type :=
| tf_nn_relu | tf_pow | tf_random_normal | tf_random_uniform | tf_reciprocal
| tf_reduce_logsumexp | tf_reduce_max | tf_reduce_mean | tf_reduce_min
| tf_reduce_prod | tf_reduce_sum | tf_sigmoid | tf_nn_softmax | tf_sqrt
| tf_squeeze | tf_tanh | tf_transpose
| tf_constant | tf_abs | tf_add | tf_subtract | tf_multiply | tf_pad
| tf_shape | tf_reshape | tf_nn_selu | tf_rank | tf_expand_dims
| tf_scatter_nd | tf_slice | tf_split | tf_stack
| np_array | ndarray_reshape | ndarray_astype.

(** A runtime operator invocation, or an argument of one: a plain Python
    object, an input array, a Python list of such values, or the call
    of [f] on positional and keyword arguments. *)
Inductive tfval : Type :=
| Py (v : pyval)
| Array (a : ndarray)
| TList (l : list tfval)
| Call (f : extfn) (args : list tfval) (kwargs : dict tfval).

(** [**attrs]: a dictionary of Python objects passed as keyword arguments. *)
Definition as_kwargs (d : dict pyval) : dict tfval :=
  map (fun kv => (fst kv, Py (snd kv))) d.

(* ------------------------------------------------------------------ *)
(** ** TensorflowBackend: the tables *)

Definition onnx_tf_attribute_map : dict string :=
  [ ("scale", "stddev");
    ("high", "maxval");
    ("low", "minval");
    ("axes", "axis");
    ("keepdims", "keep_dims");
    ("axis", "dim") ]%string.

Definition onnx_tf_op_map : dict extfn :=
  [ ("relu", tf_nn_relu);
    ("pow", tf_pow);
    ("random_normal", tf_random_normal);
    ("random_uniform", tf_random_uniform);
    ("reciprocal", tf_reciprocal);
    ("reduce_log_sum_exp", tf_reduce_logsumexp);
    ("reduce_max", tf_reduce_max);
    ("reduce_mean", tf_reduce_mean);
    ("reduce_min", tf_reduce_min);
    ("reduce_prod", tf_reduce_prod);
    ("reduce_sum", tf_reduce_sum);
    ("sigmoid", tf_sigmoid);
    ("softmax", tf_nn_softmax);
    ("sqrt", tf_sqrt);
    ("squeeze", tf_squeeze);
    ("tanh", tf_tanh);
    ("transpose", tf_transpose) ]%string.

Definition tensor_type_to_tf_type : list (Z * dtype) :=
  [ (DataType.FLOAT, tf_float32);
    (DataType.UINT8, tf_uint8);
    (DataType.INT8, tf_int8);
    (DataType.UINT16, tf_uint16);
    (DataType.INT16, tf_int16);
    (DataType.INT32, tf_int32);
    (DataType.INT64, tf_int64);
    (DataType.BOOL, tf_bool);
    (DataType.FLOAT16, tf_float16);
    (DataType.DOUBLE, tf_float64);
    (DataType.COMPLEX64, tf_complex64);
    (DataType.COMPLEX128, tf_complex128) ].

Fixpoint assocZ {A : Type} (z : Z) (l : list (Z * A)) : option A :=
  match l with
  | [] => None
  | (z', a) :: r => if Z.eqb z z' then Some a else assocZ z r
  end.

(** [cls.tensor_type_to_tf_type[x]]: the keys are integers; a float that
    equals an integer hashes and compares like it, bytes are a missing key,
    lists and protobuf messages are unhashable. *)
Definition tensor_type_lookup (x : attrval) : result dtype :=
  let at_int (z : Z) :=
    match assocZ z tensor_type_to_tf_type with
    | Some d => Ok d
    | None => Raise KeyError
    end in
  match x with
  | PyInt z => at_int z
  | PyFloat q =>
      if Qeq_bool q (inject_Z (Qfloor q)) then at_int (Qfloor q)
      else Raise KeyError
  | PyBytes _ => Raise KeyError
  | PyProto _ | PyFloats _ | PyInts _ | PyStrings _ => Raise TypeError
  end.

(** The lambdas of [attr_translator], applied to an attribute value. *)
Definition attr_translator : dict (attrval -> result pyval) :=
  [ ("dtype", fun x => d <- tensor_type_lookup x ;; Ok (PyDType d));
    ("keepdims", fun x => Ok (PyBool (py_bool x))) ]%string.

(* ------------------------------------------------------------------ *)
(** ** op_name_to_lower *)

(** The character class [[A-Z]]. *)
Definition is_upper (c : ascii) : bool :=
  (65 <=? nat_of_ascii c) && (nat_of_ascii c <=? 90).

(** The lookahead [(?=[A-Z])] on the text that remains at a position. *)
Definition lookahead_upper (rest : string) : bool :=
  match rest with
  | String c _ => is_upper c
  | EmptyString => false
  end.

(** The negative lookbehind [(?<!^)] at position [pos]. *)
Definition not_at_start (pos : nat) : bool := negb (pos =? 0).

(** [re.sub('(?<!^)(?=[A-Z])', '_', name)] scanning from position [pos]:
    the pattern is of width zero, so every position where it matches gets
    the replacement and every character is copied. *)
Fixpoint re_sub_from (pos : nat) (s : string) : string :=
  match s with
  | EmptyString => EmptyString
  | String c rest =>
      let copied := String c (re_sub_from (S pos) rest) in
      if not_at_start pos && lookahead_upper s
      then String "_" copied
      else copied
  end.

(** The capital letters beyond ASCII among the code points below 256:
    192 to 222, but the multiplication sign 215. *)
Definition is_latin1_capital (c : ascii) : bool :=
  (192 <=? nat_of_ascii c) && (nat_of_ascii c <=? 222)
  && negb (nat_of_ascii c =? 215).

(** What [str.lower()] does to one code point below 256: a capital letter,
    ASCII or not, moves 32 places up, anything else stays. *)
Definition lower_char (c : ascii) : ascii :=
  if is_upper c || is_latin1_capital c
  then ascii_of_nat (nat_of_ascii c + 32)
  else c.

(** [str.lower()]; on code points below 256 it works character by
    character. *)
Fixpoint lower (s : string) : string :=
  match s with
  | EmptyString => EmptyString
  | String c rest => String (lower_char c) (lower rest)
  end.

Definition op_name_to_lower (name : string) : string :=
  lower (re_sub_from 0 name).

(* ------------------------------------------------------------------ *)
(** ** TensorflowBackend: the translation rules *)

Local Open Scope string_scope.

(** A translation rule: from a node and the tensors bound to input names to
    the list of runtime operator invocations. *)
Definition handler : Type := OnnxNode -> dict tfval -> result (list tfval).

(** [input_dict[node.inputs[i]]] *)
Definition input_at (i : nat) (node : OnnxNode) (input_dict : dict tfval)
  : result tfval :=
  n <- item_at i (inputs node) ;;
  dict_getitem n input_dict.

Definition handle_trivial : handler := fun node input_dict =>
  (* Perform automatic attribute value translation. *)
  attrs0 <- mapM (fun x =>
               v <- (if dict_mem x attr_translator
                     then (tr <- dict_getitem x attr_translator ;;
                           a <- dict_getitem x (attrs node) ;;
                           tr a)
                     else (a <- dict_getitem x (attrs node) ;; Ok (Obj a))) ;;
               Ok (x, v))
             (dict_keys (attrs node)) ;;
  let attrs1 := dict_of_pairs attrs0 in
  (* Create an identity map from onnx attribute names to tf attribute names. *)
  let attr_map0 := dict_of_pairs (map (fun x => (x, x)) (dict_keys (attrs node))) in
  (* Modify the map according to onnx_tf_attribute_map. *)
  attr_map1 <- mapM (fun x =>
                 y <- (if dict_mem x onnx_tf_attribute_map
                       then dict_getitem x onnx_tf_attribute_map
                       else Ok x) ;;
                 Ok (x, y))
               (dict_keys attr_map0) ;;
  let attr_map := dict_of_pairs attr_map1 in
  (* Substitute attribute names in attrs. *)
  attrs2 <- mapM (fun xy =>
               k <- dict_getitem (fst xy) attr_map ;;
               Ok (k, snd xy))
             (dict_items attrs1) ;;
  let attrs' := dict_of_pairs attrs2 in
  inputs' <- mapM (fun name => dict_getitem name input_dict) (inputs node) ;;
  op <- dict_getitem (op_name_to_lower (op_type node)) onnx_tf_op_map ;;
  Ok [Call op inputs' (as_kwargs attrs')].

Definition handle_p_relu : handler := fun node input_dict =>
  x <- input_at 0 node input_dict ;;
  slope <- input_at 1 node input_dict ;;
  let pos := Call tf_nn_relu [x] [] in
  let neg :=
    Call tf_multiply
      [Call tf_multiply [slope; Call tf_subtract [x; Call tf_abs [x] []] []] [];
       Py (Obj (PyFloat (1 # 2)))] [] in
  Ok [Call tf_add [pos; neg] []].

(** [np.array(p).size]: a list gives one element per item, any other object
    an array without dimensions, of one element. *)
Definition np_size (p : attrval) : nat :=
  match p with
  | PyFloats l => List.length l
  | PyInts l => List.length l
  | PyStrings l => List.length l
  | PyFloat _ | PyInt _ | PyBytes _ | PyProto _ => 1
  end.

Definition is_digit (c : ascii) : bool :=
  ((48 <=? nat_of_ascii c) && (nat_of_ascii c <=? 57))%nat.

Definition is_space (c : ascii) : bool :=
  ((nat_of_ascii c =? 32)
   || ((9 <=? nat_of_ascii c) && (nat_of_ascii c <=? 13)))%nat.

Fixpoint skip_spaces (s : string) : string :=
  match s with
  | String c r => if is_space c then skip_spaces r else s
  | EmptyString => s
  end.

Fixpoint only_spaces (s : string) : bool :=
  match s with
  | EmptyString => true
  | String c r => is_space c && only_spaces r
  end.

(** The rest of an integer literal after a digit: digits, single
    underscores between digits, then white space only. *)
Fixpoint digits_tail (s : string) : bool :=
  match s with
  | EmptyString => true
  | String c r =>
      if is_digit c then digits_tail r
      else if Ascii.eqb c "_"%char then
        match r with
        | String d r' => is_digit d && digits_tail r'
        | EmptyString => false
        end
      else only_spaces s
  end.

(** The strings [int(s)] accepts in base 10: white space, an optional sign,
    digits, white space. *)
Definition int_literal (s : string) : bool :=
  match skip_spaces s with
  | EmptyString => false
  | String c r =>
      let body :=
        if Ascii.eqb c "+"%char || Ascii.eqb c "-"%char then r else String c r in
      match body with
      | String d r' => is_digit d && digits_tail r'
      | EmptyString => false
      end
  end.

(** Whether [ndarray.astype(np.int32)] converts the array of [p]: numbers are
    converted as they are, a string has to be an integer literal
    ([ValueError] otherwise). *)
Definition astype_int32_ok (p : attrval) : bool :=
  match p with
  | PyStrings l => forallb int_literal l
  | _ => true
  end.

(** numpy works at once, not in the graph: [reshape] raises [ValueError]
    when the new shape does not hold the elements of the array, and so does
    [astype] on a string that is no number. *)
Definition handle_pad : handler := fun node input_dict =>
  mode <- dict_getitem "mode" (attrs node) ;;
  value <- dict_getitem "value" (attrs node) ;;
  paddings <- dict_getitem "paddings" (attrs node) ;;
  len <- py_len paddings ;;
  let num_dim := (len / 2)%nat in
  paddings' <- dict_getitem "paddings" (attrs node) ;;
  reshaped <-
    (if Nat.eqb (np_size paddings') (num_dim * 2)%nat
     then Ok (Call ndarray_reshape
                [Call np_array [Py (Obj paddings')] [];
                 Py (Obj (PyInts [Z.of_nat num_dim; 2%Z]))] [])
     else Raise ValueError) ;;
  converted <-
    (if astype_int32_ok paddings'
     then Ok (Call ndarray_astype [reshaped; Py (PyDType np_int32)] [])
     else Raise ValueError) ;;
  let padding := Call tf_constant [converted] [] in
  x <- input_at 0 node input_dict ;;
  Ok [Call tf_pad [x; padding; Py (Obj mode); Py PyNone; Py (Obj value)] []].

(** [node.attrs["seed"] if "seed" in node.attrs.keys() else None] *)
Definition seed_of (node : OnnxNode) : result pyval :=
  if dict_mem "seed" (attrs node)
  then (s <- dict_getitem "seed" (attrs node) ;; Ok (Obj s))
  else Ok PyNone.

Definition handle_random_normal_like : handler := fun node input_dict =>
  x <- input_at 0 node input_dict ;;
  let shape := Call tf_shape [x] [] in
  mean <- dict_getitem "mean" (attrs node) ;;
  stddev <- dict_getitem "scale" (attrs node) ;;
  t <- dict_getitem "dtype" (attrs node) ;;
  dtype <- tensor_type_lookup t ;;
  seed <- seed_of node ;;
  Ok [Call tf_random_normal
        [shape; Py (Obj mean); Py (Obj stddev); Py (PyDType dtype); Py seed] []].

Definition handle_random_uniform_like : handler := fun node input_dict =>
  x <- input_at 0 node input_dict ;;
  let shape := Call tf_shape [x] [] in
  minval <- dict_getitem "low" (attrs node) ;;
  maxval <- dict_getitem "high" (attrs node) ;;
  t <- dict_getitem "dtype" (attrs node) ;;
  dtype <- tensor_type_lookup t ;;
  seed <- seed_of node ;;
  Ok [Call tf_random_uniform
        [shape; Py (Obj minval); Py (Obj maxval); Py (PyDType dtype); Py seed] []].

Definition handle_reshape : handler := fun node input_dict =>
  tensor <- input_at 0 node input_dict ;;
  s <- dict_getitem "shape" (attrs node) ;;
  let shape := Call tf_constant [Py (Obj s)] [] in
  Ok [Call tf_reshape [tensor; shape] []].

(** The [warnings.warn] calls of [handle_selu] and [handle_sub] only report;
    they are not part of the value returned. *)
Definition handle_selu : handler := fun node input_dict =>
  x <- input_at 0 node input_dict ;;
  Ok [Call tf_nn_selu [x] []].

Definition handle_slice : handler := fun node input_dict =>
  x0 <- input_at 0 node input_dict ;;
  let shape :=
    Call tf_reshape
      [Call tf_rank [x0] []; Call tf_constant [Py (Obj (PyInts [1%Z]))] []] [] in
  x1 <- input_at 1 node input_dict ;;
  let indices := Call tf_expand_dims [x1; Py (Obj (PyInt (-1)))] [] in
  x2 <- input_at 2 node input_dict ;;
  let begin := Call tf_scatter_nd [indices; x2; shape] [] in
  x3 <- input_at 3 node input_dict ;;
  let end' := Call tf_scatter_nd [indices; x3; shape] [] in
  let size := Call tf_subtract [end'; begin] [] in
  x0' <- input_at 0 node input_dict ;;
  Ok [Call tf_slice [x0'; begin; size] []].

Definition handle_split : handler := fun node input_dict =>
  split <- (if dict_mem "split" (attrs node)
            then (s <- dict_getitem "split" (attrs node) ;;
                  Ok (Call tf_constant [Py (Obj s)] []))
            else input_at 1 node input_dict) ;;
  axis <- dict_getitem "axis" (attrs node) ;;
  x <- input_at 0 node input_dict ;;
  Ok [Call tf_split [x; split; Py (Obj axis)] []].

Definition handle_sub : handler := fun node input_dict =>
  x <- input_at 0 node input_dict ;;
  y <- input_at 1 node input_dict ;;
  broadcast <- dict_getitem "broadcast" (attrs node) ;;
  Ok [Call tf_subtract [x; y] []].

Definition handle_sum : handler := fun node input_dict =>
  values <- mapM (fun a => dict_getitem a input_dict) (inputs node) ;;
  Ok [Call tf_reduce_sum [Call tf_stack [TList values] []]
        [("axis", Py (Obj (PyInt 0)))]].

(** The attributes of the class whose name starts with [handle_], as
    [getattr(cls, handler_name)] finds them.  [handler_name] always starts
    with [handle_], so no other name of [dir(cls)] can equal it. *)
Definition handlers : dict handler :=
  [ ("handle_trivial", handle_trivial);
    ("handle_p_relu", handle_p_relu);
    ("handle_pad", handle_pad);
    ("handle_random_normal_like", handle_random_normal_like);
    ("handle_random_uniform_like", handle_random_uniform_like);
    ("handle_reshape", handle_reshape);
    ("handle_selu", handle_selu);
    ("handle_slice", handle_slice);
    ("handle_split", handle_split);
    ("handle_sub", handle_sub);
    ("handle_sum", handle_sum) ].

(** [_onnx_node_to_tensorflow_op]; falling off the end of the function
    returns Python's [None], here [Ok None]. *)
Definition _onnx_node_to_tensorflow_op (node : OnnxNode) (input_dict : dict tfval)
  : result (option (list tfval)) :=
  let op_name_lowered := op_name_to_lower (op_type node) in
  if dict_mem op_name_lowered onnx_tf_op_map then
    ops <- handle_trivial node input_dict ;; Ok (Some ops)
  else
    let handler_name := "handle_" ++ op_name_lowered in
    (* Check if specialized handler exists. *)
    if dict_mem handler_name handlers then
      method_to_call <- dict_getitem handler_name handlers ;;
      ops <- method_to_call node input_dict ;; Ok (Some ops)
    else Ok None.

(* ------------------------------------------------------------------ *)
(** ** run_node *)

Inductive DeviceType : Type := CPU | CUDA.

(** [onnx.backend.base.Device], already parsed from its string form. *)
Record Device : Type := mkDevice {
  dev_type : DeviceType;
  device_id : Z
}.

Definition get_device_option (device : Device) : string :=
  match dev_type device with
  | CPU => "/cpu"
  | CUDA => "/gpu"
  end.

(** What [namedtupledict(typename, field_names)] of onnx.backend.base builds
    when called on values: a tuple of the type [collections.namedtuple]
    makes with [rename=True], whose items are also reached by the names
    given, through [field_names_map]. *)
Record namedtuple (V : Type) : Type := mkNamedTuple {
  typename : string;
  fields : list string;
  field_names_map : dict nat;
  values : list V
}.

Arguments mkNamedTuple {V} _ _ _ _.
Arguments typename {V} _.
Arguments fields {V} _.
Arguments field_names_map {V} _.
Arguments values {V} _.


(** The [inputs] argument of [run_node]: a list of arrays, or a dictionary
    from input names to arrays. *)
Inductive run_inputs : Type :=
| InputList (l : list ndarray)
| InputDict (d : dict ndarray).

(** [name.startswith('_')] *)
Definition starts_with_underscore (s : string) : bool :=
  match s with
  | String c _ => Ascii.eqb c "_"%char
  | EmptyString => false
  end.

(** The name [_<index>] that replaces a field name. *)
Definition positional_name (index : nat) : string :=
  String "_"%char (NilEmpty.string_of_uint (Nat.to_uint index)).

Section RunNode.

(** What the surroundings provide: [check_node] is onnx's
    [checker.check_node], true when it accepts the node (it raises
    [ValidationError] otherwise); [isidentifier] and [iskeyword] are Python's
    [str.isidentifier] and [keyword.iskeyword]; [sess_run] is the runtime's
    session, [sess.run(op)] under [tf.device(device_option)], with [V] the
    type of the values it produces. *)
Context {V : Type}.
Variable check_node : NodeProto -> bool.
Variable isidentifier : string -> bool.
Variable iskeyword : string -> bool.
Variable sess_run : string -> tfval -> result V.

(** The renaming loop of [collections.namedtuple] under [rename=True]: a
    name that is no identifier, is a keyword, starts with an underscore or
    was seen before is replaced by its position. *)
Fixpoint rename_loop (index : nat) (seen : list string) (field_names : list string)
  : list string :=
  match field_names with
  | [] => []
  | name :: rest =>
      (if negb (isidentifier name) || iskeyword name
          || starts_with_underscore name || existsb (String.eqb name) seen
       then positional_name index
       else name)
      :: rename_loop (S index) (name :: seen) rest
  end.

Definition rename_fields (field_names : list string) : list string :=
  rename_loop 0 [] field_names.

(** [namedtupledict(typename, field_names)] applied to values: the tuple
    type takes as many positional arguments as it has fields, [TypeError]
    otherwise. *)
Definition namedtupledict (typename : string) (field_names : list string)
  (vals : list V) : result (namedtuple V) :=
  let field_names_map :=
    dict_of_pairs (combine field_names (seq 0 (List.length field_names))) in
  let fields := rename_fields field_names in
  if Nat.eqb (List.length vals) (List.length fields)
  then Ok (mkNamedTuple typename fields field_names_map vals)
  else Raise TypeError.

(** The first statement calls the base class's [run_node], which checks the
    node with [checker.check_node] and returns nothing; the list
    [input_tensors] is built and never read. *)
Definition run_node (node : NodeProto) (inputs' : run_inputs) (device : Device)
  : result (namedtuple V) :=
  if check_node node then
    node <- OnnxNode_init node ;;
    let device_option := get_device_option device in
    feed_dict_raw <-
      match inputs' with
      | InputDict d => Ok d
      | InputList l =>
          if Nat.eqb (List.length (inputs node)) (List.length l)
          then Ok (dict_of_pairs (combine (inputs node) l))
          else Raise AssertionError
      end ;;
    (* TODO: is constant the best way for feeding inputs? *)
    let input_dict :=
      dict_of_pairs
        (map (fun x => (fst x, Call tf_constant [Array (snd x)] []))
             (dict_items feed_dict_raw)) in
    ops <- _onnx_node_to_tensorflow_op node input_dict ;;
    match ops with
    | None => Raise TypeError
    | Some ops =>
        output_vals <- mapM (sess_run device_option) ops ;;
        namedtupledict "Outputs" (outputs node) output_vals
    end
  else Raise ValidationError.

End RunNode.

(* ------------------------------------------------------------------ *)
(** ** Exact-arithmetic meaning of the operators of handle_sum and handle_p_relu

    The kernels belong to the runtime.  For the operators that [handle_sum]
    and [handle_p_relu] emit, their documented meaning is given here on
    arrays of rationals: element-wise operators on arrays of one shape (a
    scalar operand is broadcast), [tf.stack] along a new leading axis, and
    [tf.reduce_sum] along axis 0. *)

Local Open Scope Q_scope.

Definition numel (s : list nat) : nat := fold_right Nat.mul 1%nat s.

Definition scalar (q : Q) : ndarray := mkArray [] [q].

Definition map_array (f : Q -> Q) (a : ndarray) : ndarray :=
  mkArray (shape a) (map f (data a)).

(** [max(x, 0)] *)
Definition relu (x : Q) : Q := if Qle_bool 0 x then x else 0.

Fixpoint zip_with (f : Q -> Q -> Q) (l1 l2 : list Q) : list Q :=
  match l1, l2 with
  | x :: r1, y :: r2 => f x y :: zip_with f r1 r2
  | _, _ => []
  end.

Fixpoint shape_eqb (s1 s2 : list nat) : bool :=
  match s1, s2 with
  | [], [] => true
  | a :: r1, b :: r2 => Nat.eqb a b && shape_eqb r1 r2
  | _, _ => false
  end.

Definition elementwise (f : Q -> Q -> Q) (a b : ndarray) : option ndarray :=
  if shape_eqb (shape a) (shape b) then
    Some (mkArray (shape a) (zip_with f (data a) (data b)))
  else
    match shape a, data a with
    | [], [x] => Some (map_array (f x) b)
    | _, _ =>
        match shape b, data b with
        | [], [y] => Some (map_array (fun x => f x y) a)
        | _, _ => None
        end
    end.

(** [tf.stack(values)], axis 0: all values of one shape, laid out one after
    the other. *)
Definition stack (l : list ndarray) : option ndarray :=
  match l with
  | [] => None
  | a :: r =>
      if forallb (fun b => shape_eqb (shape a) (shape b)) r
      then Some (mkArray (List.length l :: shape a) (List.concat (map data l)))
      else None
  end.

(** [tf.reduce_sum(a, axis=0)]: element [j] of the result adds the elements
    [j], [m + j], [2 m + j], ... of [a], where [m] is the size of one slice. *)
Definition reduce_sum_axis0 (a : ndarray) : option ndarray :=
  match shape a with
  | [] => None
  | n :: s =>
      let m := numel s in
      Some (mkArray s
              (map (fun j =>
                      fold_right Qplus 0
                        (map (fun i => nth (i * m + j) (data a) 0) (seq 0 n)))
                   (seq 0 m)))
  end.

Fixpoint sequence {A : Type} (l : list (option A)) : option (list A) :=
  match l with
  | [] => Some []
  | Some a :: r =>
      match sequence r with
      | Some r' => Some (a :: r')
      | None => None
      end
  | None :: _ => None
  end.

Definition lift2 (f : ndarray -> ndarray -> option ndarray)
  (a b : option ndarray) : option ndarray :=
  match a, b with
  | Some x, Some y => f x y
  | _, _ => None
  end.

Definition axis_is_zero (kwargs : dict tfval) : bool :=
  match dict_get "axis" kwargs with
  | Some (Py (Obj (PyInt 0))) => true
  | _ => false
  end.

(** The array an invocation term evaluates to, for the operators above;
    [None] for terms outside this fragment. *)
Fixpoint eval (e : tfval) : option ndarray :=
  match e with
  | Py (Obj (PyFloat q)) => Some (scalar q)
  | Py (Obj (PyInt z)) => Some (scalar (inject_Z z))
  | Py _ => None
  | Array a => Some a
  | TList _ => None
  | Call f args kwargs =>
      match f, args with
      | tf_constant, [a] => eval a
      | tf_nn_relu, [a] => option_map (map_array relu) (eval a)
      | tf_abs, [a] => option_map (map_array Qabs) (eval a)
      | tf_add, [a; b] => lift2 (elementwise Qplus) (eval a) (eval b)
      | tf_subtract, [a; b] => lift2 (elementwise Qminus) (eval a) (eval b)
      | tf_multiply, [a; b] => lift2 (elementwise Qmult) (eval a) (eval b)
      | tf_stack, [TList l] =>
          match sequence (map eval l) with
          | Some ts => stack ts
          | None => None
          end
      | tf_reduce_sum, [a] =>
          if axis_is_zero kwargs
          then match eval a with
               | Some x => reduce_sum_axis0 x
               | None => None
               end
          else None
      | _, _ => None
      end
  end.

(** A session that evaluates with [eval], whatever the device. *)
Definition eval_session (device_option : string) (op : tfval) : result ndarray :=
  match eval op with
  | Some a => Ok a
  | None => Raise ValueError
  end.

(* ------------------------------------------------------------------ *)
(** ** The specification's own words, to compare the code with *)

(** Element-wise sum of arrays of one shape. *)
Definition add_arrays (a b : ndarray) : ndarray :=
  mkArray (shape a) (zip_with Qplus (data a) (data b)).

Definition sum_arrays (first : ndarray) (rest : list ndarray) : ndarray :=
  fold_left add_arrays rest first.

(** An array of shape [s] with as many elements as the shape asks for. *)
Definition has_shape (s : list nat) (a : ndarray) : bool :=
  shape_eqb (shape a) s && Nat.eqb (List.length (data a)) (numel s).

(** The piecewise definition of PReLU. *)
Definition p_relu_piecewise (x slope : Q) : Q :=
  if Qle_bool 0 x then x else slope * x.

Local Close Scope Q_scope.

(** The seven fields [convertAttributeProto] reads, in the order it checks
    them, each with the value to return when it is populated. *)
Definition candidates (a : AttributeProto) : list (option attrval) :=
  [ option_map PyFloat (arg_f a);
    option_map PyInt (arg_i a);
    option_map PyBytes (arg_s a);
    option_map PyProto (arg_t a);
    if nonempty (arg_floats a) then Some (PyFloats (arg_floats a)) else None;
    if nonempty (arg_ints a) then Some (PyInts (arg_ints a)) else None;
    if nonempty (arg_strings a) then Some (PyStrings (arg_strings a)) else None ].

Fixpoint first_populated (l : list (option attrval)) : option attrval :=
  match l with
  | [] => None
  | Some v :: _ => Some v
  | None :: r => first_populated r
  end.

(** No field among the seven is populated. *)
Definition unpopulated (a : AttributeProto) : Prop :=
  arg_f a = None /\ arg_i a = None /\ arg_s a = None /\ arg_t a = None /\
  arg_floats a = [] /\ arg_ints a = [] /\ arg_strings a = [].

(** Some field among the seven is populated. *)
Definition populated (a : AttributeProto) : bool :=
  match first_populated (candidates a) with
  | Some _ => true
  | None => false
  end.

(** The last attribute named [k] in an attribute list, the one a
    dictionary built in order keeps. *)
Fixpoint last_named (k : string) (args : list AttributeProto)
  : option AttributeProto :=
  match args with
  | [] => None
  | a :: rest =>
      match last_named k rest with
      | Some b => Some b
      | None => if String.eqb k (arg_name a) then Some a else None
      end
  end.

(** An underscore before each uppercase letter that is not at the start. *)
Fixpoint underscore_each_upper (s : string) : string :=
  match s with
  | EmptyString => EmptyString
  | String c rest =>
      if is_upper c
      then String "_" (String c (underscore_each_upper rest))
      else String c (underscore_each_upper rest)
  end.

Definition underscore_inner_upper (s : string) : string :=
  match s with
  | EmptyString => EmptyString
  | String c rest => String c (underscore_each_upper rest)
  end.

(** No character of the string is in [[A-Z]]. *)
Fixpoint no_upper (s : string) : bool :=
  match s with
  | EmptyString => true
  | String c rest => negb (is_upper c) && no_upper rest
  end.

(** No character of the string is changed by [str.lower()]. *)
Fixpoint no_capital (s : string) : bool :=
  match s with
  | EmptyString => true
  | String c rest => Ascii.eqb (lower_char c) c && no_capital rest
  end.

(** Attribute coercion by name: ["dtype"] through the type table,
    ["keepdims"] to a boolean, anything else unchanged. *)
Definition coerce (k : string) (v : attrval) : result pyval :=
  if String.eqb k "dtype" then (d <- tensor_type_lookup v ;; Ok (PyDType d))
  else if String.eqb k "keepdims" then Ok (PyBool (py_bool v))
  else Ok (Obj v).

(** The TensorFlow name of an attribute. *)
Definition tf_name (k : string) : string :=
  match dict_get k onnx_tf_attribute_map with
  | Some y => y
  | None => k
  end.

(** The value of the last pair with key [k] in a list of pairs. *)
Fixpoint last_binding {V : Type} (k : string) (l : list (string * V)) : option V :=
  match l with
  | [] => None
  | (k', v) :: rest =>
      match last_binding k rest with
      | Some w => Some w
      | None => if String.eqb k k' then Some v else None
      end
  end.

(** The attributes of a node with each value coerced, names unchanged. *)
Definition coerce_all (d : dict attrval) : result (list (string * pyval)) :=
  mapM (fun kv => v <- coerce (fst kv) (snd kv) ;; Ok (fst kv, v)) d.

(** Attributes under their TensorFlow names. *)
Definition rename_all (l : list (string * pyval)) : list (string * pyval) :=
  map (fun kv => (tf_name (fst kv), snd kv)) l.

(** The dictionary of raw inputs [run_node] feeds from. *)
Definition feed_of (node : OnnxNode) (inputs' : run_inputs) : dict ndarray :=
  match inputs' with
  | InputDict d => d
  | InputList l => dict_of_pairs (combine (inputs node) l)
  end.

(** Each raw input wrapped as a constant tensor. *)
Definition constants_of (feed : dict ndarray) : dict tfval :=
  dict_of_pairs (map (fun x => (fst x, Call tf_constant [Array (snd x)] [])) feed).

(** The assertion of [run_node] on a list of inputs. *)
Definition inputs_accepted (node : OnnxNode) (inputs' : run_inputs) : bool :=
  match inputs' with
  | InputDict _ => true
  | InputList l => Nat.eqb (List.length (inputs node)) (List.length l)
  end.

(** A name [collections.namedtuple] keeps as a field name: an identifier
    that is no keyword and does not start with an underscore. *)
Definition valid_field (isidentifier iskeyword : string -> bool) (name : string)
  : bool :=
  isidentifier name && negb (iskeyword name)
  && negb (starts_with_underscore name).

(** A dictionary as Python keeps it: no key twice. *)
Definition wf_dict {V : Type} (d : dict V) : Prop := NoDup (dict_keys d).

(** A rule that, whenever it returns, returns exactly one invocation. *)
Definition singleton_on_success (h : handler) : Prop :=
  forall node input_dict ops, h node input_dict = Ok ops -> exists op, ops = [op].

(** The lowered operator name has a translation rule. *)
Definition supported (node : OnnxNode) : bool :=
  let l := op_name_to_lower (op_type node) in
  dict_mem l onnx_tf_op_map || dict_mem ("handle_" ++ l) handlers.


(* ------------------------------------------------------------------ *)
(** ** Sample messages *)

Definition attr_ints (n : string) (l : list Z) : AttributeProto :=
  mkAttributeProto n None None None None [] l [].

Definition attr_int (n : string) (z : Z) : AttributeProto :=
  mkAttributeProto n None (Some z) None None [] [] [].

(** What [helper.make_attribute("axes", [])] gives: a name and no value. *)
Definition empty_axes : AttributeProto := attr_ints "axes" [].

(** A node that still carries the legacy [consumed_inputs] attribute. *)
Definition legacy_relu : NodeProto :=
  mkNodeProto "r" "Relu"
    [attr_ints "consumed_inputs" [0%Z]; attr_int "keepdims" 1%Z]
    ["x"] ["y"].

(** A constant tensor holding the scalar [q]. *)
Definition const_scalar (q : Q) : tfval := Call tf_constant [Array (scalar q)] [].

Definition relu_node : OnnxNode :=
  mkOnnxNode "r" "Relu" [] None ["x"] ["y"].

(** Convolution is an operator of the IR this backend has no rule for. *)
Definition conv_node : OnnxNode :=
  mkOnnxNode "c" "Conv" [("kernel_shape", PyInts [3%Z; 3%Z])] None
    ["x"; "w"] ["y"].

Definition gemm_node : OnnxNode :=
  mkOnnxNode "g" "Gemm" [] None ["a"; "b"; "c"] ["y"].

Definition one_input : dict tfval := [("x", const_scalar 1)].

Definition conv_inputs : dict tfval :=
  [("x", const_scalar 1); ("w", const_scalar 2)].

(** A RandomNormal node that names the deviation both ways. *)
Definition scale_then_stddev : OnnxNode :=
  mkOnnxNode "n" "RandomNormal"
    [("shape", PyInts [2%Z]); ("scale", PyFloat 2%Q); ("stddev", PyFloat 1%Q)]
    None [] ["y"].

Definition stddev_then_scale : OnnxNode :=
  mkOnnxNode "n" "RandomNormal"
    [("shape", PyInts [2%Z]); ("stddev", PyFloat 1%Q); ("scale", PyFloat 2%Q)]
    None [] ["y"].

(** A RandomUniform node asking for an element type the table leaves out. *)
Definition uniform_uint32 : OnnxNode :=
  mkOnnxNode "u" "RandomUniform"
    [("shape", PyInts [2%Z]); ("dtype", PyInt DataType.UINT32)] None [] ["y"].

Definition reduce_sum_node : OnnxNode :=
  mkOnnxNode "s" "ReduceSum"
    [("axes", PyInts [0%Z]); ("keepdims", PyInt 1)] None ["x"] ["y"].

Definition p_relu_node : OnnxNode :=
  mkOnnxNode "p" "PRelu" [] None ["x"; "slope"] ["y"].

Definition p_relu_inputs : dict tfval :=
  [("x", const_scalar (-3 # 1)); ("slope", const_scalar (1 # 4))].



(** A Split node with two outputs, as the IR defines the operator. *)
Definition split_proto : NodeProto :=
  mkNodeProto "sp" "Split"
    [attr_ints "split" [1%Z; 1%Z]; attr_int "axis" 0%Z]
    ["x"] ["a"; "b"].

Definition split_input : ndarray := mkArray [2%nat] [1; 2]%Q.

Definition split_op : tfval :=
  Call tf_split
    [Call tf_constant [Array split_input] [];
     Call tf_constant [Py (Obj (PyInts [1%Z; 1%Z]))] [];
     Py (Obj (PyInt 0))] [].

Definition sum_proto : NodeProto :=
  mkNodeProto "s" "Sum" [] ["a"; "b"] ["total"].

Definition cpu : Device := mkDevice CPU 0.

(** More sample nodes. *)
Definition trivial_node : OnnxNode :=
  mkOnnxNode "t" "Trivial" [("keepdims", PyInt 1)] None ["x"] ["y"].

Definition relu_lowercase_node : OnnxNode :=
  mkOnnxNode "other" "relu" [] (Some (PyInts [0%Z])) ["x"] ["z"; "w"].

(** The exceptions a failed lookup gives: a missing key, or a key that
    cannot be hashed. *)
Definition lookup_error (e : exn) : Prop := e = KeyError \/ e = TypeError.

Definition sub_node : OnnxNode :=
  mkOnnxNode "d" "Sub" [("broadcast", PyInt 0)] None ["x"; "y"] ["z"].

Definition sub_node_axis : OnnxNode :=
  mkOnnxNode "d" "Sub" [("broadcast", PyInt 1); ("axis", PyInt 1)] None
    ["x"; "y"] ["z"].

Definition split_node_attr : OnnxNode :=
  mkOnnxNode "sp" "Split" [("split", PyInts [1%Z; 1%Z]); ("axis", PyInt 0)] None
    ["x"] ["a"; "b"].

Definition two_inputs : dict tfval :=
  [("x", const_scalar 1); ("y", const_scalar 2)].

Definition conv_proto : NodeProto :=
  mkNodeProto "c" "Conv" [attr_ints "kernel_shape" [3%Z; 3%Z]] ["x"; "w"] ["y"].

Definition sum_two_inputs : run_inputs :=
  InputList [mkArray [2%nat] [1; 2]%Q; mkArray [2%nat] [10; 20]%Q].

(** A Sum node that names the same input twice. *)
Definition sum_twice_proto : NodeProto :=
  mkNodeProto "s" "Sum" [] ["a"; "a"] ["total"].

Definition reduce_sum_node_swapped : OnnxNode :=
  mkOnnxNode "s" "ReduceSum"
    [("keepdims", PyInt 1); ("axes", PyInts [0%Z])] None ["x"] ["y"].

Definition selu_no_input : OnnxNode :=
  mkOnnxNode "e" "Selu" [] None [] ["y"].

Definition three_inputs : dict tfval :=
  [("x", const_scalar 1); ("y", const_scalar 2); ("unused", const_scalar 3)].

(** Stand-ins for the surroundings of [run_node] in the examples: a checker
    that accepts every node, and Python's tests on ASCII names. *)
Definition accept_all (node : NodeProto) : bool := true.

Definition is_ident_start (c : ascii) : bool :=
  is_upper c || Ascii.eqb c "_"%char
  || ((97 <=? nat_of_ascii c) && (nat_of_ascii c <=? 122))%nat.

Fixpoint all_ident_chars (s : string) : bool :=
  match s with
  | EmptyString => true
  | String c r => (is_ident_start c || is_digit c) && all_ident_chars r
  end.

Definition ascii_identifier (s : string) : bool :=
  match s with
  | EmptyString => false
  | String c r => is_ident_start c && all_ident_chars r
  end.

Definition python_keyword (s : string) : bool :=
  existsb (String.eqb s)
    ["False"; "None"; "True"; "and"; "as"; "assert"; "async"; "await";
     "break"; "class"; "continue"; "def"; "del"; "elif"; "else"; "except";
     "finally"; "for"; "from"; "global"; "if"; "import"; "in"; "is";
     "lambda"; "nonlocal"; "not"; "or"; "pass"; "raise"; "return"; "try";
     "while"; "with"; "yield"].

(** A Relu node whose output is named by a number. *)
Definition relu_digit_proto : NodeProto :=
  mkNodeProto "r" "Relu" [] ["x"] ["0"].

(* ------------------------------------------------------------------ *)
(** * Properties *)

Local Open Scope list_scope.

(** ** Dictionaries *)

Section DictFacts.

Context {V : Type}.
Implicit Types (d : dict V) (k : string) (v : V).

Lemma eqb_flip : forall k k' : string, String.eqb k k' = String.eqb k' k.
Proof.
  intros k k'. destruct (String.eqb k k') eqn:E.
  - apply String.eqb_eq in E. subst. symmetry. apply String.eqb_refl.
  - destruct (String.eqb k' k) eqn:E'; [|reflexivity].
    apply String.eqb_eq in E'. subst. rewrite String.eqb_refl in E. discriminate.
Qed.

Lemma dict_get_set : forall k k' v d,
  dict_get k (dict_set k' v d) = if String.eqb k k' then Some v else dict_get k d.
Proof.
  intros k k' v d. induction d as [|[k0 v0] r IH]; simpl.
  - reflexivity.
  - destruct (String.eqb k' k0) eqn:E; simpl.
    + apply String.eqb_eq in E. subst k0.
      destruct (String.eqb k k'); reflexivity.
    + rewrite IH. destruct (String.eqb k k0) eqn:E0; [|reflexivity].
      apply String.eqb_eq in E0. subst k0.
      rewrite eqb_flip, E. reflexivity.
Qed.

Lemma dict_get_remove : forall k k' d,
  dict_get k (dict_remove k' d) = if String.eqb k k' then None else dict_get k d.
Proof.
  intros k k' d. induction d as [|[k0 v0] r IH]; simpl.
  - destruct (String.eqb k k'); reflexivity.
  - destruct (String.eqb k' k0) eqn:E; simpl.
    + apply String.eqb_eq in E. subst k0. rewrite IH.
      destruct (String.eqb k k'); reflexivity.
    + rewrite IH. destruct (String.eqb k k0) eqn:E0; [|reflexivity].
      apply String.eqb_eq in E0. subst k0.
      rewrite eqb_flip, E. reflexivity.
Qed.

Lemma dict_get_None_keys : forall k d,
  dict_get k d = None <-> ~ In k (dict_keys d).
Proof.
  intros k d. induction d as [|[k0 v0] r IH]; simpl.
  - tauto.
  - destruct (String.eqb k k0) eqn:E.
    + apply String.eqb_eq in E. subst. split; [discriminate | tauto].
    + apply String.eqb_neq in E. rewrite IH. split.
      * intros H [H1 | H1]; [congruence | tauto].
      * tauto.
Qed.

Lemma dict_get_In : forall k v d,
  wf_dict d -> In (k, v) d -> dict_get k d = Some v.
Proof.
  intros k v d. induction d as [|[k0 v0] r IH]; simpl; intros Hwf Hin.
  - contradiction.
  - inversion Hwf as [|? ? Hnot Hwf']; subst.
    destruct Hin as [Heq | Hin].
    + inversion Heq; subst. rewrite String.eqb_refl. reflexivity.
    + destruct (String.eqb k k0) eqn:E.
      * apply String.eqb_eq in E. subst k0. exfalso. apply Hnot.
        change (In (fst (k, v)) (map fst r)). apply in_map. exact Hin.
      * apply IH; assumption.
Qed.

Lemma dict_keys_set : forall k v d,
  dict_keys (dict_set k v d) =
  if dict_mem k d then dict_keys d else dict_keys d ++ [k].
Proof.
  intros k v d. unfold dict_mem, dict_keys.
  induction d as [|[k0 v0] r IH]; simpl.
  - reflexivity.
  - destruct (String.eqb k k0) eqn:E; simpl.
    + reflexivity.
    + rewrite IH. destruct (dict_get k r); reflexivity.
Qed.

Lemma dict_set_fresh : forall k v d,
  ~ In k (dict_keys d) -> dict_set k v d = d ++ [(k, v)].
Proof.
  intros k v d. induction d as [|[k0 v0] r IH]; simpl; intros Hnot.
  - reflexivity.
  - destruct (String.eqb k k0) eqn:E.
    + apply String.eqb_eq in E. subst. tauto.
    + rewrite IH by tauto. reflexivity.
Qed.

Lemma wf_dict_set : forall k v d, wf_dict d -> wf_dict (dict_set k v d).
Proof.
  intros k v d Hwf. unfold wf_dict. rewrite dict_keys_set.
  unfold dict_mem. destruct (dict_get k d) eqn:E; [exact Hwf|].
  apply dict_get_None_keys in E.
  apply NoDup_app; [exact Hwf | repeat constructor; simpl; tauto |].
  intros x Hx [Hk | []]. subst. tauto.
Qed.

Lemma dict_keys_remove_incl : forall k x d,
  In x (dict_keys (dict_remove k d)) -> In x (dict_keys d).
Proof.
  intros k x d. unfold dict_keys. induction d as [|[k0 v0] r IH]; simpl.
  - tauto.
  - destruct (String.eqb k k0); simpl; tauto.
Qed.

Lemma wf_dict_remove : forall k d, wf_dict d -> wf_dict (dict_remove k d).
Proof.
  intros k d. unfold wf_dict. induction d as [|[k0 v0] r IH]; simpl; intros Hwf.
  - constructor.
  - inversion Hwf as [|? ? Hnot Hwf']; subst.
    destruct (String.eqb k k0); [auto|]. simpl. constructor; [|auto].
    intros Hin. apply Hnot. eapply dict_keys_remove_incl. exact Hin.
Qed.

(** [dict(pairs)] of pairs with distinct keys keeps them as they are. *)
Lemma dict_of_pairs_acc : forall (l acc : list (string * V)),
  NoDup (map fst (acc ++ l)) ->
  fold_left (fun d kv => dict_set (fst kv) (snd kv) d) l acc = acc ++ l.
Proof.
  induction l as [|[k v] r IH]; intros acc Hnd; simpl.
  - rewrite app_nil_r. reflexivity.
  - rewrite dict_set_fresh.
    + rewrite IH; rewrite <- app_assoc; [reflexivity | exact Hnd].
    + rewrite map_app in Hnd. simpl in Hnd.
      apply NoDup_remove_2 in Hnd. intros Hin. apply Hnd.
      apply in_or_app. left. exact Hin.
Qed.

Lemma dict_of_pairs_nodup : forall (l : list (string * V)),
  NoDup (map fst l) -> dict_of_pairs l = l.
Proof.
  intros l Hnd. unfold dict_of_pairs. apply (dict_of_pairs_acc l []). exact Hnd.
Qed.

Lemma wf_dict_of_pairs_acc : forall (l acc : list (string * V)),
  wf_dict acc ->
  wf_dict (fold_left (fun d kv => dict_set (fst kv) (snd kv) d) l acc).
Proof.
  induction l as [|[k v] r IH]; intros acc Hwf; simpl.
  - exact Hwf.
  - apply IH. apply wf_dict_set. exact Hwf.
Qed.

Lemma wf_dict_of_pairs : forall (l : list (string * V)), wf_dict (dict_of_pairs l).
Proof.
  intros l. apply wf_dict_of_pairs_acc. constructor.
Qed.

End DictFacts.

(* ------------------------------------------------------------------ *)
(** ** Attributes *)

Lemma convert_first_populated : forall a,
  convertAttributeProto a =
  match first_populated (candidates a) with
  | Some v => Ok v
  | None => Raise ValueError
  end.
Proof.
  intros [n f i s0 t fl il sl]. unfold convertAttributeProto, candidates. simpl.
  destruct f; [reflexivity|]. destruct i; [reflexivity|].
  destruct s0; [reflexivity|]. destruct t; [reflexivity|]. simpl.
  destruct (nonempty fl); [reflexivity|].
  destruct (nonempty il); [reflexivity|].
  destruct (nonempty sl); reflexivity.
Qed.

Lemma populated_unpopulated : forall a, populated a = false <-> unpopulated a.
Proof.
  intros [n f i s0 t fl il sl]. unfold populated, unpopulated, candidates. simpl.
  split.
  - destruct f; [discriminate|]. destruct i; [discriminate|].
    destruct s0; [discriminate|]. destruct t; [discriminate|]. simpl.
    destruct fl; [|discriminate]. destruct il; [|discriminate].
    destruct sl; [|discriminate]. intros _. repeat split.
  - intros (-> & -> & -> & -> & -> & -> & ->). reflexivity.
Qed.

(** C3: convertAttributeProto returns the value of the first populated
    field in the order f, i, s, t, floats, ints, strings (the tensor as the
    proto itself, the repeated fields as lists), and it raises ValueError
    exactly when none of the seven is populated; it raises nothing else. *)
Theorem convertAttributeProto_spec : forall a : AttributeProto,
  convertAttributeProto a =
    match first_populated (candidates a) with
    | Some v => Ok v
    | None => Raise ValueError
    end
  /\ (convertAttributeProto a = Raise ValueError <-> unpopulated a)
  /\ ((exists e, convertAttributeProto a = Raise e) <-> unpopulated a).
Proof.
  intros a. split; [apply convert_first_populated|].
  rewrite <- populated_unpopulated, convert_first_populated. unfold populated.
  destruct (first_populated (candidates a)); split; split;
    try discriminate; try reflexivity.
  - intros [e He]. discriminate.
  - intros _. exists ValueError. reflexivity.
Qed.

Lemma from_onnx_loop_ok : forall args d,
  forallb populated args = true ->
  exists d',
    from_onnx_loop d args = Ok d' /\
    (wf_dict d -> wf_dict d') /\
    forall k, dict_get k d' =
      match last_named k args with
      | Some a => first_populated (candidates a)
      | None => dict_get k d
      end.
Proof.
  induction args as [|a rest IH]; intros d Hall;
    cbn [from_onnx_loop last_named forallb] in *.
  - exists d. repeat split; auto.
  - apply andb_true_iff in Hall. destruct Hall as [Ha Hrest].
    rewrite convert_first_populated. unfold populated in Ha.
    destruct (first_populated (candidates a)) as [v|] eqn:Ev; [|discriminate].
    cbn [bind]. destruct (IH (dict_set (arg_name a) v d) Hrest) as (d' & Hd' & Hwf & Hget).
    exists d'. split; [exact Hd'|]. split.
    + intros Hd. apply Hwf. apply wf_dict_set. exact Hd.
    + intros k. rewrite Hget. destruct (last_named k rest); [reflexivity|].
      rewrite dict_get_set. destruct (String.eqb k (arg_name a)); congruence.
Qed.

Lemma from_onnx_loop_raise : forall args d,
  forallb populated args = false -> from_onnx_loop d args = Raise ValueError.
Proof.
  induction args as [|a rest IH]; intros d Hall;
    cbn [from_onnx_loop forallb] in *.
  - discriminate.
  - rewrite convert_first_populated. unfold populated in Hall.
    destruct (first_populated (candidates a)) as [v|]; cbn [bind andb] in *.
    + apply IH. exact Hall.
    + reflexivity.
Qed.

(** C6 as stated fails: an attribute none of whose fields is populated
    (an empty list of axes) makes from_onnx raise instead of returning a
    dictionary. *)
Lemma from_onnx_empty_attribute_raises :
  from_onnx [empty_axes] = Raise ValueError.
Proof. reflexivity. Qed.

(** C6, amended: when every attribute has a populated field, from_onnx
    returns a dictionary (no key twice) that maps each attribute name to
    the object convertAttributeProto gives for the last attribute of that
    name, and has no other key; when some attribute has none, it raises
    ValueError. *)
Theorem from_onnx_spec : forall args : list AttributeProto,
  (forallb populated args = true ->
     exists d, from_onnx args = Ok d /\ wf_dict d /\
       forall k, dict_get k d =
         match last_named k args with
         | Some a => first_populated (candidates a)
         | None => None
         end)
  /\ (forallb populated args = false -> from_onnx args = Raise ValueError).
Proof.
  intros args. split.
  - intros Hall. destruct (from_onnx_loop_ok args [] Hall) as (d & Hd & Hwf & Hget).
    exists d. split; [exact Hd|]. split; [apply Hwf; constructor|].
    intros k. rewrite Hget. reflexivity.
  - apply from_onnx_loop_raise.
Qed.

(** C9: after OnnxNode construction (which succeeds when every attribute
    has a populated field) attrs has no key "consumed_inputs", the
    consumed_inputs field holds that attribute's value when the node had one
    and None otherwise, and every other name is bound in attrs as in the
    node's attributes. *)
Theorem OnnxNode_init_consumed_inputs : forall node : NodeProto,
  forallb populated (np_attribute node) = true ->
  exists n d,
    OnnxNode_init node = Ok n /\
    from_onnx (np_attribute node) = Ok d /\
    dict_get "consumed_inputs" (attrs n) = None /\
    consumed_inputs n = dict_get "consumed_inputs" d /\
    consumed_inputs n =
      match last_named "consumed_inputs" (np_attribute node) with
      | Some a => first_populated (candidates a)
      | None => None
      end /\
    forall k, k <> "consumed_inputs"%string ->
      dict_get k (attrs n) = dict_get k d /\
      dict_get k (attrs n) =
        match last_named k (np_attribute node) with
        | Some a => first_populated (candidates a)
        | None => None
        end.
Proof.
  intros node Hall.
  destruct (from_onnx_loop_ok (np_attribute node) [] Hall) as (d & Hd & _ & Hget).
  unfold OnnxNode_init, from_onnx. rewrite Hd. simpl.
  eexists. exists d. split; [reflexivity|]. simpl.
  split; [reflexivity|]. split.
  - rewrite dict_get_remove, String.eqb_refl. reflexivity.
  - split; [reflexivity|]. split; [rewrite Hget; reflexivity|].
    intros k Hk. rewrite dict_get_remove.
    apply String.eqb_neq in Hk. rewrite Hk.
    split; [reflexivity|]. rewrite Hget. reflexivity.
Qed.

Lemma OnnxNode_init_consumed_inputs_witness :
  exists n d,
    OnnxNode_init legacy_relu = Ok n /\
    from_onnx (np_attribute legacy_relu) = Ok d /\
    dict_get "consumed_inputs" (attrs n) = None /\
    consumed_inputs n = dict_get "consumed_inputs" d /\
    consumed_inputs n =
      match last_named "consumed_inputs" (np_attribute legacy_relu) with
      | Some a => first_populated (candidates a)
      | None => None
      end /\
    forall k, k <> "consumed_inputs"%string ->
      dict_get k (attrs n) = dict_get k d /\
      dict_get k (attrs n) =
        match last_named k (np_attribute legacy_relu) with
        | Some a => first_populated (candidates a)
        | None => None
        end.
Proof.
  apply (OnnxNode_init_consumed_inputs legacy_relu). reflexivity.
Defined.

(* ------------------------------------------------------------------ *)
(** ** Operator names *)

Lemma re_sub_from_S : forall s pos,
  re_sub_from (S pos) s = underscore_each_upper s.
Proof.
  induction s as [|c rest IH]; intros pos; simpl.
  - reflexivity.
  - rewrite IH. destruct (is_upper c); reflexivity.
Qed.

Lemma re_sub_from_0 : forall s, re_sub_from 0 s = underscore_inner_upper s.
Proof.
  destruct s as [|c rest]; simpl.
  - reflexivity.
  - rewrite re_sub_from_S. reflexivity.
Qed.

Lemma lower_char_not_upper : forall c, is_upper (lower_char c) = false.
Proof.
  intros [b0 b1 b2 b3 b4 b5 b6 b7].
  destruct b0, b1, b2, b3, b4, b5, b6, b7; reflexivity.
Qed.

Lemma no_upper_lower : forall s, no_upper (lower s) = true.
Proof.
  induction s as [|c rest IH]; simpl.
  - reflexivity.
  - rewrite lower_char_not_upper, IH. reflexivity.
Qed.

Lemma lower_char_idem : forall c, lower_char (lower_char c) = lower_char c.
Proof.
  intros [b0 b1 b2 b3 b4 b5 b6 b7].
  destruct b0, b1, b2, b3, b4, b5, b6, b7; reflexivity.
Qed.

Lemma lower_idem : forall s, lower (lower s) = lower s.
Proof.
  induction s as [|c rest IH]; simpl.
  - reflexivity.
  - rewrite lower_char_idem, IH. reflexivity.
Qed.

Lemma underscore_each_fixed : forall s,
  no_upper s = true -> underscore_each_upper s = s.
Proof.
  induction s as [|c rest IH]; simpl; intros H.
  - reflexivity.
  - apply andb_true_iff in H. destruct H as [Hc Hrest].
    apply negb_true_iff in Hc. rewrite Hc, IH by assumption. reflexivity.
Qed.

Lemma re_sub_fixed : forall s, no_upper s = true -> re_sub_from 0 s = s.
Proof.
  intros s H. rewrite re_sub_from_0. destruct s as [|c rest]; simpl in *.
  - reflexivity.
  - apply andb_true_iff in H. destruct H as [_ Hrest].
    rewrite underscore_each_fixed by assumption. reflexivity.
Qed.

(** C5, amended: op_name_to_lower puts an underscore before each of the
    letters A to Z that is not at the start of the string (before no other
    character) and lowercases the result ("ReduceLogSumExp" becomes
    "reduce_log_sum_exp"), and applying it twice gives the same string as
    applying it once. *)
Theorem op_name_to_lower_spec : forall name : string,
  op_name_to_lower name = lower (underscore_inner_upper name)
  /\ op_name_to_lower "ReduceLogSumExp" = "reduce_log_sum_exp"%string
  /\ op_name_to_lower (op_name_to_lower name) = op_name_to_lower name.
Proof.
  intros name. unfold op_name_to_lower. split; [|split].
  - rewrite re_sub_from_0. reflexivity.
  - reflexivity.
  - rewrite re_sub_fixed by apply no_upper_lower.
    apply lower_idem.
Qed.

(** C5 as stated fails: in "a" followed by E acute (code point 201) the
    second letter is an uppercase letter not at the start, which lowercasing
    turns into e acute (233), yet no underscore is put before it: the
    pattern looks for A to Z only. *)
Lemma op_name_to_lower_capital_outside_ascii :
  op_name_to_lower (String "a" (String "201" EmptyString))
    = String "a" (String "233" EmptyString)
  /\ lower_char "201" = "233"%char
  /\ is_upper "201" = false.
Proof. repeat split; reflexivity. Qed.

(* ------------------------------------------------------------------ *)
(** ** Rule selection *)

Ltac split_binds H :=
  unfold bind in H;
  repeat match type of H with
         | context [match ?c with _ => _ end] => destruct c; try discriminate
         end.

Ltac one_invocation :=
  let H := fresh "H" in
  intros ? ? ? H; split_binds H; inversion H; eexists; reflexivity.

Lemma handle_trivial_singleton : singleton_on_success handle_trivial.
Proof. unfold handle_trivial. one_invocation. Qed.

Lemma handle_p_relu_singleton : singleton_on_success handle_p_relu.
Proof. unfold handle_p_relu. one_invocation. Qed.

Lemma handle_pad_singleton : singleton_on_success handle_pad.
Proof. unfold handle_pad. one_invocation. Qed.

Lemma handle_random_normal_like_singleton :
  singleton_on_success handle_random_normal_like.
Proof. unfold handle_random_normal_like, seed_of. one_invocation. Qed.

Lemma handle_random_uniform_like_singleton :
  singleton_on_success handle_random_uniform_like.
Proof. unfold handle_random_uniform_like, seed_of. one_invocation. Qed.

Lemma handle_reshape_singleton : singleton_on_success handle_reshape.
Proof. unfold handle_reshape. one_invocation. Qed.

Lemma handle_selu_singleton : singleton_on_success handle_selu.
Proof. unfold handle_selu. one_invocation. Qed.

Lemma handle_slice_singleton : singleton_on_success handle_slice.
Proof. unfold handle_slice. one_invocation. Qed.

Lemma handle_split_singleton : singleton_on_success handle_split.
Proof. unfold handle_split. one_invocation. Qed.

Lemma handle_sub_singleton : singleton_on_success handle_sub.
Proof. unfold handle_sub. one_invocation. Qed.

Lemma handle_sum_singleton : singleton_on_success handle_sum.
Proof. unfold handle_sum. one_invocation. Qed.

Create HintDb rules.
#[local] Hint Resolve handle_trivial_singleton handle_p_relu_singleton
  handle_pad_singleton handle_random_normal_like_singleton
  handle_random_uniform_like_singleton handle_reshape_singleton
  handle_selu_singleton handle_slice_singleton handle_split_singleton
  handle_sub_singleton handle_sum_singleton : rules.

Lemma handlers_singleton : forall k h,
  dict_get k handlers = Some h -> singleton_on_success h.
Proof.
  intros k h H. unfold handlers in H. cbn [dict_get] in H.
  repeat match type of H with
         | context [if ?b then _ else _] =>
             destruct b; [inversion H; subst; auto with rules|]
         end.
  discriminate.
Qed.

Lemma translation_singleton : forall node input_dict ops,
  _onnx_node_to_tensorflow_op node input_dict = Ok (Some ops) ->
  exists op, ops = [op].
Proof.
  intros node input_dict ops. unfold _onnx_node_to_tensorflow_op.
  destruct (dict_mem (op_name_to_lower (op_type node)) onnx_tf_op_map).
  - destruct (handle_trivial node input_dict) as [l|e] eqn:E; simpl; [|discriminate].
    intros H. inversion H; subst. eapply handle_trivial_singleton. exact E.
  - destruct (dict_mem _ handlers); [|discriminate].
    unfold dict_getitem.
    destruct (dict_get _ handlers) as [h|] eqn:Eh; simpl; [|discriminate].
    destruct (h node input_dict) as [l|e] eqn:E; simpl; [|discriminate].
    intros H. inversion H; subst. eapply handlers_singleton; eassumption.
Qed.

(** C1 as stated fails: for a node whose operator has no rule (here Conv,
    with its inputs bound) the translation returns None, not a list of
    invocations; and a rule that is selected may raise instead of returning
    (here Relu with its input not bound). *)
Lemma translation_of_conv_is_None :
  _onnx_node_to_tensorflow_op conv_node conv_inputs = Ok None
  /\ _onnx_node_to_tensorflow_op relu_node [] = Raise KeyError.
Proof. split; reflexivity. Qed.

(** C1, amended: for every node whose lowered op_type is a key of
    onnx_tf_op_map or names a handle_ method, the rule is handle_trivial
    when the lowered name is a key of onnx_tf_op_map (checked first) and
    the method handle_<lowered name> otherwise; the result is what that rule
    gives, so either the exception the rule raises or a list of exactly one
    runtime operator invocation. *)
Theorem translation_rule_selected : forall (node : OnnxNode) (input_dict : dict tfval),
  supported node = true ->
  (dict_mem (op_name_to_lower (op_type node)) onnx_tf_op_map = true ->
     _onnx_node_to_tensorflow_op node input_dict =
     (ops <- handle_trivial node input_dict ;; Ok (Some ops)))
  /\ (dict_mem (op_name_to_lower (op_type node)) onnx_tf_op_map = false ->
        exists h,
          dict_get ("handle_" ++ op_name_to_lower (op_type node))%string handlers = Some h /\
          _onnx_node_to_tensorflow_op node input_dict =
          (ops <- h node input_dict ;; Ok (Some ops)))
  /\ ((exists e, _onnx_node_to_tensorflow_op node input_dict = Raise e) \/
      (exists op, _onnx_node_to_tensorflow_op node input_dict = Ok (Some [op]))).
Proof.
  intros node input_dict Hsup. unfold supported in Hsup.
  split; [|split].
  - intros Hmem. unfold _onnx_node_to_tensorflow_op. rewrite Hmem. reflexivity.
  - intros Hmem. rewrite Hmem in Hsup. cbn [orb] in Hsup.
    unfold _onnx_node_to_tensorflow_op. rewrite Hmem, Hsup.
    unfold dict_mem in Hsup. unfold dict_getitem.
    destruct (dict_get _ handlers) as [h|]; [|discriminate].
    exists h. split; reflexivity.
  - destruct (_onnx_node_to_tensorflow_op node input_dict) as [[ops|]|e] eqn:E.
    + right. destruct (translation_singleton _ _ _ E) as [op ->]. exists op. reflexivity.
    + exfalso. unfold _onnx_node_to_tensorflow_op in E.
      destruct (dict_mem (op_name_to_lower (op_type node)) onnx_tf_op_map).
      * destruct (handle_trivial node input_dict); discriminate.
      * cbn [orb] in Hsup. rewrite Hsup in E. unfold dict_mem in Hsup. unfold dict_getitem in E.
        destruct (dict_get _ handlers) as [h|]; [|discriminate].
        simpl in E. destruct (h node input_dict); discriminate.
    + left. exists e. reflexivity.
Qed.

Lemma translation_rule_selected_witness :
  exists op, _onnx_node_to_tensorflow_op relu_node one_input = Ok (Some [op]).
Proof.
  destruct (translation_rule_selected relu_node one_input eq_refl) as (_ & _ & [[e H] | H]).
  - discriminate H.
  - exact H.
Defined.

(** C8: for every node whose lowered op_type is neither a key of
    onnx_tf_op_map nor the name of a handle_ method, the translation
    returns None and raises nothing. *)
Theorem translation_unsupported_is_None : forall (node : OnnxNode) (input_dict : dict tfval),
  dict_mem (op_name_to_lower (op_type node)) onnx_tf_op_map = false ->
  dict_mem ("handle_" ++ op_name_to_lower (op_type node))%string handlers = false ->
  _onnx_node_to_tensorflow_op node input_dict = Ok None.
Proof.
  intros node input_dict Hop Hh. unfold _onnx_node_to_tensorflow_op.
  rewrite Hop, Hh. reflexivity.
Qed.

Lemma translation_unsupported_is_None_witness :
  _onnx_node_to_tensorflow_op gemm_node [] = Ok None.
Proof.
  apply (translation_unsupported_is_None gemm_node []); reflexivity.
Defined.

(* ------------------------------------------------------------------ *)
(** ** handle_trivial *)

Section MapM.

Context {A B : Type}.

Lemma mapM_ext_in : forall (f g : A -> result B) (l : list A),
  (forall a, In a l -> f a = g a) -> mapM f l = mapM g l.
Proof.
  intros f g l. induction l as [|a r IH]; intros H; simpl.
  - reflexivity.
  - rewrite (H a) by (left; reflexivity).
    rewrite IH; [reflexivity|]. intros b Hb. apply H. right. exact Hb.
Qed.

Lemma mapM_map : forall {C : Type} (f : A -> result B) (g : C -> A) (l : list C),
  mapM f (map g l) = mapM (fun c => f (g c)) l.
Proof.
  intros C f g l. induction l as [|c r IH]; simpl.
  - reflexivity.
  - rewrite IH. reflexivity.
Qed.

Lemma mapM_total : forall (f : A -> result B) (g : A -> B) (l : list A),
  (forall a, In a l -> f a = Ok (g a)) -> mapM f l = Ok (map g l).
Proof.
  intros f g l. induction l as [|a r IH]; intros H; simpl.
  - reflexivity.
  - rewrite (H a) by (left; reflexivity). simpl.
    rewrite IH; [reflexivity|]. intros b Hb. apply H. right. exact Hb.
Qed.

End MapM.

Lemma coerce_all_keys : forall d vs,
  coerce_all d = Ok vs -> map fst vs = dict_keys d.
Proof.
  unfold coerce_all, dict_keys. induction d as [|[k v] r IH]; simpl; intros vs H.
  - inversion H. reflexivity.
  - destruct (coerce k v); simpl in H; [|discriminate].
    destruct (mapM _ r); simpl in H; [|discriminate].
    inversion H; subst. simpl. f_equal. apply IH. reflexivity.
Qed.

Lemma translator_is_coerce : forall x v,
  (if dict_mem x attr_translator
   then (tr <- dict_getitem x attr_translator ;; a <- Ok v ;; tr a)
   else (a <- Ok v ;; Ok (Obj a))) = coerce x v.
Proof.
  intros x v. unfold dict_mem, dict_getitem, attr_translator, coerce.
  cbn [dict_get].
  destruct (String.eqb x "dtype"); [reflexivity|].
  destruct (String.eqb x "keepdims"); reflexivity.
Qed.

Lemma attribute_map_is_tf_name : forall x,
  (if dict_mem x onnx_tf_attribute_map
   then dict_getitem x onnx_tf_attribute_map
   else Ok x) = Ok (tf_name x).
Proof.
  intros x. unfold dict_mem, dict_getitem, tf_name.
  destruct (dict_get x onnx_tf_attribute_map); reflexivity.
Qed.

Lemma dict_get_graph : forall {V : Type} (f : string -> V) (ks : list string) (k : string),
  In k ks -> dict_get k (map (fun x => (x, f x)) ks) = Some (f k).
Proof.
  intros V f ks k. induction ks as [|k0 r IH]; simpl; intros Hin.
  - contradiction.
  - destruct (String.eqb k k0) eqn:E.
    + apply String.eqb_eq in E. subst. reflexivity.
    + apply IH. destruct Hin as [H | H]; [|exact H].
      subst. rewrite String.eqb_refl in E. discriminate.
Qed.

Lemma map_fst_graph : forall {V : Type} (f : string -> V) (ks : list string),
  map fst (map (fun x => (x, f x)) ks) = ks.
Proof.
  intros V f ks. rewrite map_map. simpl. apply map_id.
Qed.

(** The three passes of handle_trivial over the attributes amount to one
    coercion pass and one renaming pass. *)
Lemma handle_trivial_refines : forall node input_dict,
  wf_dict (attrs node) ->
  handle_trivial node input_dict =
  (vs <- coerce_all (attrs node) ;;
   ins <- mapM (fun name => dict_getitem name input_dict) (inputs node) ;;
   op <- dict_getitem (op_name_to_lower (op_type node)) onnx_tf_op_map ;;
   Ok [Call op ins (as_kwargs (dict_of_pairs (rename_all vs)))]).
Proof.
  intros node input_dict Hwf. unfold handle_trivial.
  assert (Hfirst :
    mapM (fun x =>
            v <- (if dict_mem x attr_translator
                  then (tr <- dict_getitem x attr_translator ;;
                        a <- dict_getitem x (attrs node) ;; tr a)
                  else (a <- dict_getitem x (attrs node) ;; Ok (Obj a))) ;;
            Ok (x, v)) (dict_keys (attrs node))
    = coerce_all (attrs node)).
  { unfold dict_keys, coerce_all. rewrite mapM_map. apply mapM_ext_in.
    intros [k v] Hin. cbn [fst snd].
    assert (Hk : dict_getitem k (attrs node) = Ok v).
    { unfold dict_getitem. rewrite (dict_get_In k v); auto. }
    rewrite Hk, translator_is_coerce. reflexivity. }
  rewrite Hfirst. clear Hfirst.
  destruct (coerce_all (attrs node)) as [vs|e] eqn:Evs; [|reflexivity].
  cbn [bind].
  pose proof (coerce_all_keys _ _ Evs) as Hkeys.
  assert (Hnd : NoDup (map fst vs)) by (rewrite Hkeys; exact Hwf).
  rewrite (dict_of_pairs_nodup vs Hnd).
  rewrite (dict_of_pairs_nodup (map (fun x => (x, x)) (dict_keys (attrs node))))
    by (rewrite map_fst_graph; exact Hwf).
  unfold dict_keys at 1. rewrite map_fst_graph.
  rewrite (mapM_total _ (fun x => (x, tf_name x))).
  2:{ intros x _. rewrite attribute_map_is_tf_name. reflexivity. }
  cbn [bind].
  rewrite dict_of_pairs_nodup by (rewrite map_fst_graph; exact Hwf).
  unfold dict_items.
  rewrite (mapM_total _ (fun kv => (tf_name (fst kv), snd kv))).
  2:{ intros [k v] Hin. cbn [fst snd]. unfold dict_getitem.
      rewrite dict_get_graph; [reflexivity|].
      rewrite <- Hkeys.
      change k with (fst (k, v)). apply in_map. exact Hin. }
  reflexivity.
Qed.

Lemma last_binding_acc : forall {V : Type} (l acc : list (string * V)) (k : string),
  dict_get k (fold_left (fun d kv => dict_set (fst kv) (snd kv) d) l acc) =
  match last_binding k l with
  | Some v => Some v
  | None => dict_get k acc
  end.
Proof.
  intros V l. induction l as [|[k0 v0] r IH]; intros acc k; simpl.
  - reflexivity.
  - rewrite IH. destruct (last_binding k r); [reflexivity|].
    rewrite dict_get_set. destruct (String.eqb k k0); reflexivity.
Qed.

Lemma dict_get_of_pairs : forall {V : Type} (l : list (string * V)) (k : string),
  dict_get k (dict_of_pairs l) = last_binding k l.
Proof.
  intros V l k. unfold dict_of_pairs. rewrite last_binding_acc.
  destruct (last_binding k l); reflexivity.
Qed.

Lemma last_binding_In : forall {V : Type} (l : list (string * V)) (k : string) (v : V),
  last_binding k l = Some v -> In (k, v) l.
Proof.
  intros V l k v. induction l as [|[k0 v0] r IH]; simpl; intros H.
  - discriminate.
  - destruct (last_binding k r).
    + right. apply IH. exact H.
    + destruct (String.eqb k k0) eqn:E; [|discriminate].
      apply String.eqb_eq in E. inversion H; subst. left. reflexivity.
Qed.

Lemma last_binding_unique : forall {V : Type} (l : list (string * V)) (k : string) (v : V),
  In (k, v) l -> (forall v', In (k, v') l -> v' = v) -> last_binding k l = Some v.
Proof.
  intros V l k v Hin Hall.
  destruct (last_binding k l) as [w|] eqn:E.
  - f_equal. apply Hall. apply last_binding_In. exact E.
  - exfalso. clear Hall. induction l as [|[k0 v0] r IH]; simpl in *.
    + contradiction.
    + destruct (last_binding k r); [discriminate|].
      destruct (String.eqb k k0) eqn:E0; [discriminate|].
      destruct Hin as [H | H].
      * inversion H; subst. rewrite String.eqb_refl in E0. discriminate.
      * apply IH; [exact H | reflexivity].
Qed.

Lemma dict_get_as_kwargs : forall (d : dict pyval) (k : string),
  dict_get k (as_kwargs d) = option_map Py (dict_get k d).
Proof.
  intros d k. unfold as_kwargs. induction d as [|[k0 v0] r IH]; simpl.
  - reflexivity.
  - destruct (String.eqb k k0); [reflexivity | exact IH].
Qed.

(** C2 as stated fails: when two attributes get the same TensorFlow name
    ("scale" is renamed to "stddev", "stddev" keeps its name) a single
    keyword argument is passed, holding the value of whichever attribute
    comes later; the other attribute's value is dropped.  Nor is the
    operator always called: a "dtype" outside tensor_type_to_tf_type, or an
    input name that is not bound, raises KeyError. *)
Lemma handle_trivial_name_clash :
  handle_trivial scale_then_stddev [] =
    Ok [Call tf_random_normal []
          [("shape"%string, Py (Obj (PyInts [2%Z])));
           ("stddev"%string, Py (Obj (PyFloat 1%Q)))]]
  /\ handle_trivial stddev_then_scale [] =
    Ok [Call tf_random_normal []
          [("shape"%string, Py (Obj (PyInts [2%Z])));
           ("stddev"%string, Py (Obj (PyFloat 2%Q)))]]
  /\ handle_trivial uniform_uint32 [] = Raise KeyError
  /\ handle_trivial relu_node [] = Raise KeyError.
Proof. repeat split; reflexivity. Qed.

(** C2, amended: for a node handled by handle_trivial whose coercions
    succeed (a "dtype" value is in tensor_type_to_tf_type), whose inputs are
    all bound and whose operator is in onnx_tf_op_map: values are coerced by
    attribute name first ("dtype" through the type table, "keepdims" to
    bool), then names are mapped through onnx_tf_attribute_map ("scale" to
    "stddev", "axes" to "axis", "keepdims" to "keep_dims", names outside the
    map unchanged), and the mapped operator is called once with the node's
    inputs in order as positional arguments and the renamed attributes as
    keyword arguments.  An attribute whose TensorFlow name no other
    attribute of the node shares is passed with its coerced value; when no
    two attributes share a TensorFlow name the keyword arguments are all
    the attributes, in order; and no other keyword is passed. *)
Theorem handle_trivial_spec :
  forall (node : OnnxNode) (input_dict : dict tfval)
         (vs : list (string * pyval)) (ins : list tfval) (op : extfn),
  wf_dict (attrs node) ->
  coerce_all (attrs node) = Ok vs ->
  mapM (fun name => dict_getitem name input_dict) (inputs node) = Ok ins ->
  dict_get (op_name_to_lower (op_type node)) onnx_tf_op_map = Some op ->
  exists kwargs,
    handle_trivial node input_dict = Ok [Call op ins kwargs]
    /\ kwargs = as_kwargs (dict_of_pairs (rename_all vs))
    /\ (forall k v, In (k, v) vs ->
          (forall k' v', In (k', v') vs -> tf_name k' = tf_name k -> k' = k) ->
          dict_get (tf_name k) kwargs = Some (Py v))
    /\ (NoDup (map fst (rename_all vs)) ->
          kwargs = map (fun kv => (tf_name (fst kv), Py (snd kv))) vs)
    /\ (forall k', dict_mem k' kwargs = true ->
          exists k, In k (dict_keys (attrs node)) /\ k' = tf_name k)
    /\ (forall k v, coerce k v =
          if String.eqb k "dtype" then (d <- tensor_type_lookup v ;; Ok (PyDType d))
          else if String.eqb k "keepdims" then Ok (PyBool (py_bool v))
          else Ok (Obj v))
    /\ tf_name "scale" = "stddev"%string
    /\ tf_name "axes" = "axis"%string
    /\ tf_name "keepdims" = "keep_dims"%string
    /\ (forall k, dict_mem k onnx_tf_attribute_map = false -> tf_name k = k).
Proof.
  intros node input_dict vs ins op Hwf Hvs Hins Hop.
  exists (as_kwargs (dict_of_pairs (rename_all vs))).
  pose proof (coerce_all_keys _ _ Hvs) as Hkeys.
  assert (Hnd : NoDup (map fst vs)) by (rewrite Hkeys; exact Hwf).
  split.
  { rewrite handle_trivial_refines by exact Hwf.
    rewrite Hvs. cbn [bind]. rewrite Hins. cbn [bind].
    unfold dict_getitem. rewrite Hop. reflexivity. }
  split; [reflexivity|]. split; [|split; [|split]].
  - intros k v Hin Honly.
    rewrite dict_get_as_kwargs, dict_get_of_pairs.
    rewrite (last_binding_unique (rename_all vs) (tf_name k) v); [reflexivity| |].
    + unfold rename_all. change (tf_name k, v) with
        ((fun kv : string * pyval => (tf_name (fst kv), snd kv)) (k, v)).
      apply in_map. exact Hin.
    + intros v' Hin'. unfold rename_all in Hin'. apply in_map_iff in Hin'.
      destruct Hin' as ([k1 v1] & Heq & Hin1). cbn [fst snd] in Heq.
      inversion Heq; subst v1.
      assert (k1 = k) by (eapply Honly; eassumption). subst k1.
      assert (G1 : dict_get k vs = Some v') by (apply dict_get_In; assumption).
      assert (G2 : dict_get k vs = Some v) by (apply dict_get_In; assumption).
      congruence.
  - intros Hnr. rewrite dict_of_pairs_nodup by exact Hnr.
    unfold as_kwargs, rename_all. rewrite map_map. reflexivity.
  - intros k' Hmem. unfold dict_mem in Hmem.
    rewrite dict_get_as_kwargs, dict_get_of_pairs in Hmem.
    destruct (last_binding k' (rename_all vs)) as [w|] eqn:E; [|discriminate].
    apply last_binding_In in E. unfold rename_all in E. apply in_map_iff in E.
    destruct E as ([k1 v1] & Heq & Hin1). cbn [fst snd] in Heq.
    inversion Heq; subst. exists k1. split; [|reflexivity].
    rewrite <- Hkeys. change k1 with (fst (k1, w)). apply in_map. exact Hin1.
  - split; [reflexivity|]. repeat (split; [reflexivity|]).
    intros k Hk. unfold dict_mem in Hk. unfold tf_name.
    destruct (dict_get k onnx_tf_attribute_map); [discriminate | reflexivity].
Qed.

Lemma handle_trivial_spec_witness :
  handle_trivial reduce_sum_node one_input =
  Ok [Call tf_reduce_sum [const_scalar 1]
        [("axis"%string, Py (Obj (PyInts [0%Z])));
         ("keep_dims"%string, Py (PyBool true))]].
Proof.
  destruct (handle_trivial_spec reduce_sum_node one_input
              [("axes"%string, Obj (PyInts [0%Z])); ("keepdims"%string, PyBool true)]
              [const_scalar 1] tf_reduce_sum)
    as (kwargs & Hcall & Hkw & _).
  - repeat constructor; simpl; intuition discriminate.
  - reflexivity.
  - reflexivity.
  - reflexivity.
  - rewrite Hcall, Hkw. reflexivity.
Defined.

(* ------------------------------------------------------------------ *)
(** ** PReLU *)

Lemma p_relu_formula : forall x slope : Q,
  (relu x + slope * (x - Qabs x) * (1 # 2) == p_relu_piecewise x slope)%Q.
Proof.
  intros x slope. unfold relu, p_relu_piecewise.
  destruct (Qle_bool 0 x) eqn:E.
  - apply Qle_bool_iff in E. rewrite (Qabs_pos x E). ring.
  - assert (Hneg : (x <= 0)%Q).
    { destruct (Qlt_le_dec x 0) as [H | H].
      - apply Qlt_le_weak. exact H.
      - apply Qle_bool_iff in H. congruence. }
    rewrite (Qabs_neg x Hneg). ring.
Qed.

(** C10: the tensor handle_p_relu builds is relu(x) + slope * (x - |x|) * 0.5,
    and in exact arithmetic that number equals x when x >= 0 and slope * x
    when x < 0. *)
Theorem handle_p_relu_piecewise :
  forall (node : OnnxNode) (input_dict : dict tfval) (nx ns : string)
         (ex es : tfval) (x slope : Q),
  nth_error (inputs node) 0 = Some nx ->
  nth_error (inputs node) 1 = Some ns ->
  dict_get nx input_dict = Some ex ->
  dict_get ns input_dict = Some es ->
  eval ex = Some (scalar x) ->
  eval es = Some (scalar slope) ->
  exists e,
    handle_p_relu node input_dict = Ok [e]
    /\ eval e = Some (scalar (relu x + slope * (x - Qabs x) * (1 # 2))%Q)
    /\ (relu x + slope * (x - Qabs x) / 2 == p_relu_piecewise x slope)%Q
    /\ ((0 <= x)%Q -> (relu x + slope * (x - Qabs x) / 2 == x)%Q)
    /\ ((x < 0)%Q -> (relu x + slope * (x - Qabs x) / 2 == slope * x)%Q).
Proof.
  intros node input_dict nx ns ex es x slope Hnx Hns Hex Hes Hx Hs.
  assert (Hhalf : (relu x + slope * (x - Qabs x) / 2 == p_relu_piecewise x slope)%Q).
  { rewrite <- p_relu_formula. unfold Qdiv. reflexivity. }
  eexists. split; [|split; [|split; [exact Hhalf | split]]].
  - unfold handle_p_relu, input_at, item_at, dict_getitem.
    rewrite Hnx, Hns. cbn [bind]. rewrite Hex, Hes. cbn [bind]. reflexivity.
  - cbn [eval]. rewrite Hx, Hs. reflexivity.
  - intros H. rewrite Hhalf. unfold p_relu_piecewise.
    apply Qle_bool_iff in H. rewrite H. reflexivity.
  - intros H. rewrite Hhalf. unfold p_relu_piecewise.
    destruct (Qle_bool 0 x) eqn:E; [|reflexivity].
    apply Qle_bool_iff in E. exfalso. apply (Qlt_not_le _ _ H). exact E.
Qed.

Lemma handle_p_relu_piecewise_witness :
  exists e,
    handle_p_relu p_relu_node p_relu_inputs = Ok [e]
    /\ eval e = Some (scalar (relu (-3 # 1) + (1 # 4) * ((-3 # 1) - Qabs (-3 # 1)) * (1 # 2))%Q)
    /\ (relu (-3 # 1) + (1 # 4) * ((-3 # 1) - Qabs (-3 # 1)) / 2
        == p_relu_piecewise (-3 # 1) (1 # 4))%Q
    /\ ((0 <= -3 # 1)%Q ->
        (relu (-3 # 1) + (1 # 4) * ((-3 # 1) - Qabs (-3 # 1)) / 2 == -3 # 1)%Q)
    /\ ((-3 # 1 < 0)%Q ->
        (relu (-3 # 1) + (1 # 4) * ((-3 # 1) - Qabs (-3 # 1)) / 2
         == (1 # 4) * (-3 # 1))%Q).
Proof.
  apply (handle_p_relu_piecewise p_relu_node p_relu_inputs "x" "slope"
           (const_scalar (-3 # 1)) (const_scalar (1 # 4)) (-3 # 1) (1 # 4));
    reflexivity.
Defined.

(* ------------------------------------------------------------------ *)
(** ** Sum *)

Lemma shape_eqb_eq : forall s1 s2, shape_eqb s1 s2 = true <-> s1 = s2.
Proof.
  induction s1 as [|a r IH]; destruct s2 as [|b r2]; simpl;
    try (split; [discriminate | intros H; inversion H]); try tauto.
  rewrite andb_true_iff, Nat.eqb_eq, IH. split.
  - intros [-> ->]. reflexivity.
  - intros H. inversion H. tauto.
Qed.

Lemma has_shape_spec : forall s a,
  has_shape s a = true <-> shape a = s /\ List.length (data a) = numel s.
Proof.
  intros s a. unfold has_shape.
  rewrite andb_true_iff, shape_eqb_eq, Nat.eqb_eq. tauto.
Qed.

Lemma zip_with_length : forall f l1 l2,
  List.length l1 = List.length l2 ->
  List.length (zip_with f l1 l2) = List.length l1.
Proof.
  intros f. induction l1 as [|x r IH]; destruct l2 as [|y r2]; simpl;
    intros H; try discriminate; try reflexivity.
  f_equal. apply IH. congruence.
Qed.

Lemma zip_with_nth : forall f l1 l2 j,
  List.length l1 = List.length l2 -> (j < List.length l1)%nat ->
  nth j (zip_with f l1 l2) 0%Q = f (nth j l1 0%Q) (nth j l2 0%Q).
Proof.
  intros f. induction l1 as [|x r IH]; destruct l2 as [|y r2]; simpl;
    intros j Hlen Hj; try discriminate; try lia.
  destruct j as [|j]; [reflexivity|]. apply IH; [congruence | lia].
Qed.

(** Element [j] of slice [i] of a stack is element [j] of the [i]-th value. *)
Lemma stacked_column : forall (ts : list ndarray) (m j : nat),
  Forall (fun t => List.length (data t) = m) ts -> (j < m)%nat ->
  map (fun i => nth (i * m + j) (List.concat (map data ts)) 0%Q)
      (seq 0 (List.length ts))
  = map (fun t => nth j (data t) 0%Q) ts.
Proof.
  induction ts as [|t r IH]; intros m j Hall Hj; simpl.
  - reflexivity.
  - inversion Hall as [|? ? Ht Hr]; subst.
    f_equal.
    + apply app_nth1. lia.
    + rewrite <- seq_shift, map_map. rewrite <- (IH (List.length (data t)) j Hr Hj).
      apply map_ext. intros i.
      rewrite app_nth2 by lia. f_equal. lia.
Qed.

Lemma sum_arrays_column : forall (m : nat) (rest : list ndarray) (first : ndarray),
  List.length (data first) = m ->
  Forall (fun t => List.length (data t) = m) rest ->
  List.length (data (fold_left add_arrays rest first)) = m /\
  forall j, (j < m)%nat ->
    (nth j (data (fold_left add_arrays rest first)) 0
     == nth j (data first) 0
        + fold_right Qplus 0 (map (fun t => nth j (data t) 0) rest))%Q.
Proof.
  intros m. induction rest as [|t r IH]; intros first Hfirst Hall; simpl.
  - split; [exact Hfirst|]. intros j _. ring.
  - inversion Hall as [|? ? Ht Hr]; subst.
    assert (Hlen : List.length (data (add_arrays first t)) = List.length (data first)).
    { simpl. apply zip_with_length. congruence. }
    destruct (IH (add_arrays first t) Hlen Hr) as [Hl Hnth].
    split; [exact Hl|]. intros j Hj. rewrite (Hnth j Hj). simpl.
    rewrite zip_with_nth by (congruence || lia). ring.
Qed.

Lemma Forall2_pointwise : forall (l1 l2 : list Q),
  List.length l1 = List.length l2 ->
  (forall j, (j < List.length l1)%nat -> (nth j l1 0 == nth j l2 0)%Q) ->
  Forall2 Qeq l1 l2.
Proof.
  induction l1 as [|x r IH]; destruct l2 as [|y r2]; simpl; intros Hlen H;
    try discriminate; constructor.
  - apply (H 0%nat). lia.
  - apply IH; [congruence|]. intros j Hj. apply (H (S j)). lia.
Qed.

Lemma nth_map_seq : forall (g : nat -> Q) (m j : nat),
  (j < m)%nat -> nth j (map g (seq 0 m)) 0%Q = g j.
Proof.
  intros g m j Hj.
  rewrite (nth_indep _ 0%Q (g 0%nat)) by (rewrite length_map, length_seq; exact Hj).
  rewrite map_nth, seq_nth by exact Hj. reflexivity.
Qed.

Lemma handle_sum_builds : forall node input_dict es,
  mapM (fun a => dict_getitem a input_dict) (inputs node) = Ok es ->
  handle_sum node input_dict =
  Ok [Call tf_reduce_sum [Call tf_stack [TList es] []]
        [("axis"%string, Py (Obj (PyInt 0)))]].
Proof.
  intros node input_dict es H. unfold handle_sum. rewrite H. reflexivity.
Qed.

Lemma eval_reduce_sum_stack : forall es,
  eval (Call tf_reduce_sum [Call tf_stack [TList es] []]
          [("axis"%string, Py (Obj (PyInt 0)))]) =
  match sequence (map eval es) with
  | Some ts =>
      match stack ts with
      | Some x => reduce_sum_axis0 x
      | None => None
      end
  | None => None
  end.
Proof.
  intros es. cbn [eval]. unfold axis_is_zero. cbn [dict_get String.eqb Ascii.eqb Bool.eqb].
  destruct (sequence (map eval es)); reflexivity.
Qed.




(* ------------------------------------------------------------------ *)
(** ** run_node *)

Lemma last_binding_wf : forall {V : Type} (d : dict V) (k : string),
  wf_dict d -> last_binding k d = dict_get k d.
Proof.
  intros V d k Hwf. destruct (dict_get k d) as [v|] eqn:E.
  - apply last_binding_unique.
    + clear Hwf. induction d as [|[k0 v0] r IH]; simpl in *; [discriminate|].
      destruct (String.eqb k k0) eqn:E0.
      * apply String.eqb_eq in E0. inversion E; subst. left. reflexivity.
      * right. apply IH. exact E.
    + intros v' Hin. apply (dict_get_In k v' d Hwf) in Hin. congruence.
  - destruct (last_binding k d) as [w|] eqn:E'; [|reflexivity].
    apply last_binding_In in E'. apply (dict_get_In k w d Hwf) in E'. congruence.
Qed.

Lemma last_binding_map : forall {V W : Type} (g : V -> W) (l : list (string * V)) (k : string),
  last_binding k (map (fun x => (fst x, g (snd x))) l) = option_map g (last_binding k l).
Proof.
  intros V W g l k. induction l as [|[k0 v0] r IH]; simpl.
  - reflexivity.
  - rewrite IH. destruct (last_binding k r); [reflexivity|].
    cbn [option_map]. destruct (String.eqb k k0); reflexivity.
Qed.

(** Every raw input is bound, under its name, to a constant holding it. *)
Lemma constants_of_get : forall (feed : dict ndarray) (k : string),
  wf_dict feed ->
  dict_get k (constants_of feed) =
  option_map (fun a => Call tf_constant [Array a] []) (dict_get k feed).
Proof.
  intros feed k Hwf. unfold constants_of.
  rewrite dict_get_of_pairs.
  rewrite (last_binding_map (fun a => Call tf_constant [Array a] [])).
  rewrite last_binding_wf by exact Hwf. reflexivity.
Qed.

Lemma combine_keys_incl : forall {V : Type} (ks : list string) (vs : list V) (k : string),
  In k (map fst (combine ks vs)) -> In k ks.
Proof.
  intros V ks. induction ks as [|k0 r IH]; intros [|v vs] k; simpl; try tauto.
  intros [H | H]; [left; exact H | right; eapply IH; exact H].
Qed.

Lemma combine_wf : forall {V : Type} (ks : list string) (vs : list V),
  NoDup ks -> NoDup (map fst (combine ks vs)).
Proof.
  intros V ks. induction ks as [|k0 r IH]; intros [|v vs] Hnd; simpl;
    try constructor.
  - inversion Hnd; subst. intros Hin. apply combine_keys_incl in Hin. tauto.
  - inversion Hnd; subst. apply IH. assumption.
Qed.

Lemma combine_get : forall {V : Type} (ks : list string) (vs : list V)
                           (i : nat) (k : string) (v : V),
  NoDup ks -> nth_error ks i = Some k -> nth_error vs i = Some v ->
  dict_get k (combine ks vs) = Some v.
Proof.
  intros V ks. induction ks as [|k0 r IH]; intros [|v0 vs] i k v Hnd Hk Hv;
    destruct i as [|i]; simpl in *; try discriminate.
  - inversion Hk; inversion Hv; subst. rewrite String.eqb_refl. reflexivity.
  - inversion Hnd as [|? ? Hnot Hnd']; subst.
    destruct (String.eqb k k0) eqn:E.
    + apply String.eqb_eq in E. subst. exfalso. apply Hnot.
      eapply nth_error_In. exact Hk.
    + eapply IH; eassumption.
Qed.

Lemma feed_of_wf : forall node inputs',
  (forall d, inputs' = InputDict d -> wf_dict d) -> wf_dict (feed_of node inputs').
Proof.
  intros node [l|d] H; simpl.
  - apply wf_dict_of_pairs.
  - apply H. reflexivity.
Qed.

Section RunNodeFacts.

Context {V : Type}.
Variable check_node : NodeProto -> bool.
Variable isidentifier : string -> bool.
Variable iskeyword : string -> bool.
Variable sess_run : string -> tfval -> result V.

Lemma run_node_unfold : forall node inputs' device n,
  check_node node = true ->
  OnnxNode_init node = Ok n ->
  inputs_accepted n inputs' = true ->
  run_node check_node isidentifier iskeyword sess_run node inputs' device =
  (ops <- _onnx_node_to_tensorflow_op n (constants_of (feed_of n inputs')) ;;
   match ops with
   | None => Raise TypeError
   | Some ops =>
       output_vals <- mapM (sess_run (get_device_option device)) ops ;;
       namedtupledict isidentifier iskeyword "Outputs" (outputs n) output_vals
   end).
Proof.
  intros node inputs' device n Hcheck Hinit Hacc. unfold run_node.
  rewrite Hcheck, Hinit.
  cbn [bind]. destruct inputs' as [l|d]; cbn [inputs_accepted feed_of] in *.
  - rewrite Hacc. reflexivity.
  - reflexivity.
Qed.

Lemma rename_loop_length : forall names index seen,
  List.length (rename_loop isidentifier iskeyword index seen names)
  = List.length names.
Proof.
  induction names as [|nm rest IH]; intros index seen; simpl.
  - reflexivity.
  - rewrite IH. reflexivity.
Qed.

(** Valid names that differ from each other and from the names seen so
    far are kept as they are. *)
Lemma rename_loop_valid : forall names index seen,
  forallb (valid_field isidentifier iskeyword) names = true ->
  NoDup names ->
  (forall x, In x names -> ~ In x seen) ->
  rename_loop isidentifier iskeyword index seen names = names.
Proof.
  induction names as [|nm rest IH]; intros index seen Hvalid Hnd Hseen; simpl.
  - reflexivity.
  - simpl in Hvalid. apply andb_true_iff in Hvalid. destruct Hvalid as [Hnm Hrest].
    unfold valid_field in Hnm.
    apply andb_true_iff in Hnm. destruct Hnm as [Hnm Hus].
    apply andb_true_iff in Hnm. destruct Hnm as [Hid Hkw].
    apply negb_true_iff in Hus. apply negb_true_iff in Hkw.
    rewrite Hid, Hkw, Hus. cbn [negb orb].
    assert (Hex : existsb (String.eqb nm) seen = false).
    { destruct (existsb (String.eqb nm) seen) eqn:E; [|reflexivity].
      apply existsb_exists in E. destruct E as (x & Hx & Hxe).
      apply String.eqb_eq in Hxe. subst x. exfalso.
      apply (Hseen nm); [left; reflexivity | exact Hx]. }
    rewrite Hex. inversion Hnd as [|? ? Hnot Hnd']; subst. f_equal.
    apply IH; [exact Hrest | exact Hnd' |].
    intros x Hx [Hxs | Hxs].
    + subst x. contradiction.
    + apply (Hseen x); [right; exact Hx | exact Hxs].
Qed.

End RunNodeFacts.

(** A Split node with two outputs: Split has a rule, which gives one
    invocation for the whole list of pieces, so one value comes back from
    the session and the tuple of two fields is not built. *)
Lemma run_node_split_two_outputs :
  (exists n, OnnxNode_init split_proto = Ok n /\ supported n = true /\
             outputs n = ["a"; "b"]%string)
  /\ forall (V : Type) (check_node : NodeProto -> bool)
            (isidentifier iskeyword : string -> bool)
            (sess_run : string -> tfval -> result V),
       check_node split_proto = true ->
       run_node check_node isidentifier iskeyword sess_run split_proto
         (InputList [split_input]) cpu =
       match sess_run "/cpu"%string split_op with
       | Ok _ => Raise TypeError
       | Raise e => Raise e
       end.
Proof.
  split.
  - eexists. repeat split; reflexivity.
  - intros V check_node isidentifier iskeyword sess_run Hcheck.
    rewrite (run_node_unfold check_node isidentifier iskeyword sess_run split_proto
               (InputList [split_input]) cpu _ Hcheck eq_refl eq_refl).
    change (_onnx_node_to_tensorflow_op _ _) with
      (Ok (A := option (list tfval)) (Some [split_op])).
    cbn [bind mapM]. change (get_device_option cpu) with "/cpu"%string.
    destruct (sess_run "/cpu"%string split_op); reflexivity.
Qed.

(** C4 as stated fails: a Sum node has a rule, yet with a list of inputs
    shorter than its input names run_node stops at its assertion and
    returns nothing; and a Relu node whose output is named "0", which is no
    identifier, gets a tuple whose field is named "_0", not "0" (the value is
    still reached under "0"). *)
Lemma run_node_guards :
  (exists n, OnnxNode_init sum_proto = Ok n /\ supported n = true)
  /\ (exists n, OnnxNode_init relu_digit_proto = Ok n /\ supported n = true)
  /\ forall (V : Type) (check_node : NodeProto -> bool)
            (isidentifier iskeyword : string -> bool)
            (sess_run : string -> tfval -> result V),
       (check_node sum_proto = true ->
        run_node check_node isidentifier iskeyword sess_run sum_proto
          (InputList [split_input]) cpu = Raise AssertionError)
       /\ (forall v,
             check_node relu_digit_proto = true ->
             isidentifier "0"%string = false ->
             sess_run "/cpu"%string
               (Call tf_nn_relu [Call tf_constant [Array split_input] []] []) = Ok v ->
             run_node check_node isidentifier iskeyword sess_run relu_digit_proto
               (InputList [split_input]) cpu =
             Ok (mkNamedTuple "Outputs" ["_0"%string] [("0"%string, 0%nat)] [v])).
Proof.
  split; [eexists; split; reflexivity|].
  split; [eexists; split; reflexivity|].
  intros V check_node isidentifier iskeyword sess_run. split.
  - intros Hcheck. unfold run_node. rewrite Hcheck. reflexivity.
  - intros v Hcheck Hid Hv.
    rewrite (run_node_unfold check_node isidentifier iskeyword sess_run
               relu_digit_proto (InputList [split_input]) cpu
               (mkOnnxNode "r" "Relu" [] None ["x"%string] ["0"%string])
               Hcheck eq_refl eq_refl).
    change (_onnx_node_to_tensorflow_op _ _) with
      (Ok (A := option (list tfval))
          (Some [Call tf_nn_relu [Call tf_constant [Array split_input] []] []])).
    cbn [bind mapM]. change (get_device_option cpu) with "/cpu"%string.
    rewrite Hv. cbn [bind]. unfold namedtupledict, rename_fields.
    cbn [outputs rename_loop]. rewrite Hid. reflexivity.
Qed.

(** C4, amended: for every node that the checker accepts and OnnxNode
    accepts, whose inputs pass the length assertion, whose translation
    succeeds and whose operators all evaluate, run_node is one pass: every
    input value is bound under its name to a constant tensor holding it, the
    translated operators are evaluated one after the other in the session
    under the device option, and when there are as many results as output
    names the value returned is the named tuple 'Outputs' that holds the
    evaluated results in order and is indexed by the node's output names;
    its field names are the output names in order where these are
    distinct identifiers that are no keywords and start with no underscore
    (any other name is replaced by its position). *)
Theorem run_node_outputs :
  forall (V : Type) (check_node : NodeProto -> bool)
         (isidentifier iskeyword : string -> bool)
         (sess_run : string -> tfval -> result V)
         (node : NodeProto) (inputs' : run_inputs) (device : Device)
         (n : OnnxNode) (ops : list tfval) (vals : list V),
  check_node node = true ->
  OnnxNode_init node = Ok n ->
  inputs_accepted n inputs' = true ->
  (forall d, inputs' = InputDict d -> wf_dict d) ->
  _onnx_node_to_tensorflow_op n (constants_of (feed_of n inputs')) = Ok (Some ops) ->
  mapM (sess_run (get_device_option device)) ops = Ok vals ->
  (forall name, dict_get name (constants_of (feed_of n inputs')) =
                option_map (fun a => Call tf_constant [Array a] [])
                  (dict_get name (feed_of n inputs')))
  /\ (forall l i name a, inputs' = InputList l -> NoDup (inputs n) ->
        nth_error (inputs n) i = Some name -> nth_error l i = Some a ->
        dict_get name (constants_of (feed_of n inputs')) =
        Some (Call tf_constant [Array a] []))
  /\ (List.length (outputs n) = List.length vals ->
        run_node check_node isidentifier iskeyword sess_run node inputs' device =
        Ok (mkNamedTuple "Outputs"
              (rename_fields isidentifier iskeyword (outputs n))
              (dict_of_pairs (combine (outputs n) (seq 0 (List.length (outputs n)))))
              vals))
  /\ (forallb (valid_field isidentifier iskeyword) (outputs n) = true ->
      NoDup (outputs n) ->
      rename_fields isidentifier iskeyword (outputs n) = outputs n).
Proof.
  intros V check_node isidentifier iskeyword sess_run node inputs' device n ops vals
    Hcheck Hinit Hacc Hwf Hops Hvals.
  pose proof (feed_of_wf n inputs' Hwf) as Hfeed.
  split; [|split; [|split]].
  - intros name. apply constants_of_get. exact Hfeed.
  - intros l i name a -> Hnd Hname Ha.
    rewrite constants_of_get by exact Hfeed. cbn [feed_of].
    rewrite dict_of_pairs_nodup by (apply combine_wf; exact Hnd).
    rewrite (combine_get _ _ i name a Hnd Hname Ha). reflexivity.
  - intros Hlen.
    rewrite (run_node_unfold check_node isidentifier iskeyword sess_run node inputs'
               device n Hcheck Hinit Hacc).
    rewrite Hops. cbn [bind]. rewrite Hvals. cbn [bind].
    unfold namedtupledict, rename_fields. rewrite rename_loop_length, Hlen, Nat.eqb_refl.
    reflexivity.
  - intros Hvalid Hnd. unfold rename_fields.
    apply rename_loop_valid; [exact Hvalid | exact Hnd |].
    intros x _ [].
Qed.

Lemma run_node_outputs_witness :
  run_node accept_all ascii_identifier python_keyword eval_session sum_proto
    (InputList [mkArray [2%nat] [1; 2]%Q; mkArray [2%nat] [10; 20]%Q]) cpu =
  Ok (mkNamedTuple "Outputs" ["total"%string] [("total"%string, 0%nat)]
        [mkArray [2%nat] [1 + (10 + 0); 2 + (20 + 0)]%Q]).
Proof.
  refine (proj1 (proj2 (proj2
    (run_node_outputs ndarray accept_all ascii_identifier python_keyword
       eval_session sum_proto
       (InputList [mkArray [2%nat] [1; 2]%Q; mkArray [2%nat] [10; 20]%Q]) cpu
       (mkOnnxNode "s" "Sum" [] None ["a"; "b"] ["total"])
       [Call tf_reduce_sum
          [Call tf_stack
             [TList [Call tf_constant [Array (mkArray [2%nat] [1; 2]%Q)] [];
                     Call tf_constant [Array (mkArray [2%nat] [10; 20]%Q)] []]] []]
          [("axis"%string, Py (Obj (PyInt 0)))]]
       [mkArray [2%nat] [1 + (10 + 0); 2 + (20 + 0)]%Q]
       eq_refl eq_refl eq_refl _ eq_refl eq_refl))) eq_refl).
  intros d H. discriminate H.
Defined.

(* ------------------------------------------------------------------ *)
(** ** More about operator names and rule selection *)

Lemma lower_char_fixed_not_upper : forall c,
  Ascii.eqb (lower_char c) c = true -> is_upper c = false.
Proof.
  intros [b0 b1 b2 b3 b4 b5 b6 b7].
  destruct b0, b1, b2, b3, b4, b5, b6, b7; intros H; try reflexivity;
    discriminate H.
Qed.

Lemma no_capital_no_upper : forall s, no_capital s = true -> no_upper s = true.
Proof.
  induction s as [|c rest IH]; simpl; intros H.
  - reflexivity.
  - apply andb_true_iff in H. destruct H as [Hc Hrest].
    rewrite (lower_char_fixed_not_upper c Hc), (IH Hrest). reflexivity.
Qed.

Lemma lower_fixed_iff : forall s, lower s = s <-> no_capital s = true.
Proof.
  induction s as [|c rest IH]; simpl.
  - split; reflexivity.
  - rewrite andb_true_iff, Ascii.eqb_eq, <- IH. split.
    + intros H. inversion H as [[Hc Hrest]]. rewrite Hc, Hrest. tauto.
    + intros [Hc Hrest]. rewrite Hc, Hrest. reflexivity.
Qed.

(** X1: the lowered operator name contains none of the letters A to Z and
    no character that lowercasing would change, and the names
    op_name_to_lower leaves unchanged are exactly the names that lowercasing
    leaves unchanged. *)
Theorem op_name_to_lower_fixed_points : forall name : string,
  no_upper (op_name_to_lower name) = true
  /\ no_capital (op_name_to_lower name) = true
  /\ (op_name_to_lower name = name <-> no_capital name = true).
Proof.
  intros name. unfold op_name_to_lower.
  split; [apply no_upper_lower|].
  split; [apply lower_fixed_iff, lower_idem|]. split.
  - intros H. rewrite <- H. apply lower_fixed_iff, lower_idem.
  - intros H. rewrite re_sub_fixed by (apply no_capital_no_upper; exact H).
    apply lower_fixed_iff. exact H.
Qed.

Lemma mapM_raise : forall {A B : Type} (P : exn -> Prop) (f : A -> result B)
                          (l : list A) (e : exn),
  (forall a e', In a l -> f a = Raise e' -> P e') ->
  mapM f l = Raise e -> P e.
Proof.
  intros A B P f l e. induction l as [|a r IH]; simpl; intros Hf H.
  - discriminate.
  - destruct (f a) as [b|e'] eqn:Ea; simpl in H.
    + destruct (mapM f r) as [bs|e''] eqn:Er; simpl in H; [discriminate|].
      inversion H; subst. apply IH; [|reflexivity].
      intros a0 e0 Hin. apply Hf. right. exact Hin.
    + inversion H; subst. apply (Hf a); [left; reflexivity | exact Ea].
Qed.

Lemma dict_getitem_raise : forall {V : Type} (k : string) (d : dict V) (e : exn),
  dict_getitem k d = Raise e -> e = KeyError.
Proof.
  intros V k d e. unfold dict_getitem. destruct (dict_get k d); intros H;
    inversion H; reflexivity.
Qed.

Lemma tensor_type_lookup_raise : forall x e,
  tensor_type_lookup x = Raise e -> lookup_error e.
Proof.
  intros x e. unfold tensor_type_lookup, lookup_error.
  destruct x; intros H;
    repeat match type of H with
           | context [match ?c with _ => _ end] => destruct c
           end;
    inversion H; auto.
Qed.

Lemma attr_translator_raise : forall x tr a e,
  dict_get x attr_translator = Some tr -> tr a = Raise e -> lookup_error e.
Proof.
  intros x tr a e Htr. unfold attr_translator in Htr. cbn [dict_get] in Htr.
  destruct (String.eqb x "dtype").
  - inversion Htr; subst. unfold bind.
    destruct (tensor_type_lookup a) eqn:E; intros H; inversion H; subst.
    eapply tensor_type_lookup_raise. exact E.
  - destruct (String.eqb x "keepdims"); [|discriminate].
    inversion Htr; subst. discriminate.
Qed.

(** Whatever [handle_trivial] raises before calling the operator comes from
    one of its lookups. *)
Lemma handle_trivial_raise : forall node input_dict e,
  handle_trivial node input_dict = Raise e -> lookup_error e.
Proof.
  intros node input_dict e. unfold handle_trivial.
  match goal with |- bind ?c _ = _ -> _ => destruct c as [attrs0|e0] eqn:E0 end;
    cbn [bind].
  2:{ intros H. inversion H; subst. revert E0. apply mapM_raise.
      intros x e' _. unfold bind, dict_getitem.
      destruct (dict_mem x attr_translator).
      - destruct (dict_get x attr_translator) as [tr|] eqn:Etr;
          [|intros H'; inversion H'; left; reflexivity].
        destruct (dict_get x (attrs node)) as [a|];
          [|intros H'; inversion H'; left; reflexivity].
        destruct (tr a) eqn:Ea; intros H'; inversion H'; subst.
        eapply attr_translator_raise; eassumption.
      - destruct (dict_get x (attrs node)); intros H'; inversion H'.
        left; reflexivity. }
  match goal with |- bind ?c _ = _ -> _ => destruct c as [m1|e1] eqn:E1 end;
    cbn [bind].
  2:{ intros H. inversion H; subst. revert E1. apply mapM_raise.
      intros x e' _. unfold bind, dict_getitem.
      destruct (dict_mem x onnx_tf_attribute_map); [|discriminate].
      destruct (dict_get x onnx_tf_attribute_map); intros H'; inversion H'.
      left; reflexivity. }
  match goal with |- bind ?c _ = _ -> _ => destruct c as [a2|e2] eqn:E2 end;
    cbn [bind].
  2:{ intros H. inversion H; subst. revert E2. apply mapM_raise.
      intros x e' _. unfold bind, dict_getitem.
      destruct (dict_get (fst x) _); intros H'; inversion H'.
      left; reflexivity. }
  match goal with |- bind ?c _ = _ -> _ => destruct c as [ins|e3] eqn:E3 end;
    cbn [bind].
  2:{ intros H. inversion H; subst. revert E3. apply mapM_raise.
      intros x e' _ H'. left. eapply dict_getitem_raise. exact H'. }
  destruct (dict_getitem _ onnx_tf_op_map) eqn:E4; cbn [bind]; intros H;
    inversion H; subst.
  left. eapply dict_getitem_raise. exact E4.
Qed.

Lemma handle_trivial_unknown_op : forall node input_dict,
  dict_get (op_name_to_lower (op_type node)) onnx_tf_op_map = None ->
  exists e, handle_trivial node input_dict = Raise e.
Proof.
  intros node input_dict Hop.
  assert (Hg : dict_getitem (op_name_to_lower (op_type node)) onnx_tf_op_map
               = Raise KeyError).
  { unfold dict_getitem. rewrite Hop. reflexivity. }
  unfold handle_trivial. rewrite Hg. cbn [bind].
  repeat match goal with
         | |- exists e, bind ?c _ = Raise e =>
             destruct c; cbn [bind]; [|eexists; reflexivity]
         end.
  eexists. reflexivity.
Qed.

(** X2: handle_trivial is itself found as the handler of a node whose
    lowered op_type is "trivial"; such a node is never translated: the
    operator lookup fails, so the call raises KeyError (or the TypeError of
    an unhashable dtype value met before it). *)
Theorem translation_of_trivial_raises : forall (node : OnnxNode) (input_dict : dict tfval),
  op_name_to_lower (op_type node) = "trivial"%string ->
  exists e,
    _onnx_node_to_tensorflow_op node input_dict = Raise e /\
    (e = KeyError \/ e = TypeError).
Proof.
  intros node input_dict Hlow. unfold _onnx_node_to_tensorflow_op. rewrite Hlow.
  change (dict_mem "trivial"%string onnx_tf_op_map) with false. cbv iota.
  change (dict_mem ("handle_" ++ "trivial")%string handlers) with true. cbv iota.
  change (dict_getitem ("handle_" ++ "trivial")%string handlers) with (Ok handle_trivial).
  cbn [bind].
  destruct (handle_trivial_unknown_op node input_dict) as [e He].
  { rewrite Hlow. reflexivity. }
  exists e. rewrite He. split; [reflexivity|].
  eapply handle_trivial_raise. exact He.
Qed.

Lemma translation_of_trivial_raises_witness :
  exists e,
    _onnx_node_to_tensorflow_op trivial_node one_input = Raise e /\
    (e = KeyError \/ e = TypeError).
Proof.
  apply (translation_of_trivial_raises trivial_node one_input). reflexivity.
Defined.

Lemma handlers_same_inputs : forall k h n1 n2 input_dict,
  dict_get k handlers = Some h ->
  attrs n1 = attrs n2 -> inputs n1 = inputs n2 ->
  op_name_to_lower (op_type n1) = op_name_to_lower (op_type n2) ->
  h n1 input_dict = h n2 input_dict.
Proof.
  intros k h [nm1 op1 at1 ci1 in1 out1] [nm2 op2 at2 ci2 in2 out2] input_dict H.
  cbn [attrs inputs op_type]. intros <- <- Hlow.
  unfold handlers in H. cbn [dict_get] in H.
  repeat match type of H with
         | context [if ?b then _ else _] =>
             destruct b;
             [inversion H; subst;
              unfold handle_trivial, handle_p_relu, handle_pad,
                handle_random_normal_like, handle_random_uniform_like,
                handle_reshape, handle_selu, handle_slice, handle_split,
                handle_sub, handle_sum, seed_of, input_at;
              cbn [attrs inputs op_type]; try rewrite Hlow; reflexivity|]
         end.
  discriminate.
Qed.

(** X3: the translation reads a node only through the lowered form of its
    op_type, its attributes and its input names: two nodes that agree on
    these are translated alike, whatever their names, outputs,
    consumed_inputs and the spelling of op_type ("Relu" or "relu"). *)
Theorem translation_reads_lowered_name :
  forall (n1 n2 : OnnxNode) (input_dict : dict tfval),
  op_name_to_lower (op_type n1) = op_name_to_lower (op_type n2) ->
  attrs n1 = attrs n2 ->
  inputs n1 = inputs n2 ->
  _onnx_node_to_tensorflow_op n1 input_dict = _onnx_node_to_tensorflow_op n2 input_dict.
Proof.
  intros n1 n2 input_dict Hlow Hattrs Hinputs.
  unfold _onnx_node_to_tensorflow_op. rewrite <- Hlow.
  destruct (dict_mem (op_name_to_lower (op_type n1)) onnx_tf_op_map).
  - rewrite (handlers_same_inputs "handle_trivial" handle_trivial n1 n2 input_dict
               eq_refl Hattrs Hinputs Hlow). reflexivity.
  - destruct (dict_mem _ handlers); [|reflexivity].
    unfold dict_getitem. destruct (dict_get _ handlers) as [h|] eqn:Eh; [|reflexivity].
    cbn [bind]. rewrite (handlers_same_inputs _ h n1 n2 input_dict Eh Hattrs Hinputs Hlow).
    reflexivity.
Qed.

Lemma translation_reads_lowered_name_witness :
  _onnx_node_to_tensorflow_op relu_node one_input =
  _onnx_node_to_tensorflow_op relu_lowercase_node one_input.
Proof.
  apply (translation_reads_lowered_name relu_node relu_lowercase_node one_input);
    reflexivity.
Defined.

(* ------------------------------------------------------------------ *)
(** ** More about node construction *)

Lemma last_named_In : forall k args a,
  last_named k args = Some a -> In a args /\ arg_name a = k.
Proof.
  intros k args a. induction args as [|b rest IH]; simpl; intros H.
  - discriminate.
  - destruct (last_named k rest) as [c|].
    + inversion H; subst. destruct (IH eq_refl) as [Hin Hn]. tauto.
    + destruct (String.eqb k (arg_name b)) eqn:E; [|discriminate].
      inversion H; subst. apply String.eqb_eq in E. auto.
Qed.

Lemma last_named_exists : forall args a,
  In a args -> exists b, last_named (arg_name a) args = Some b.
Proof.
  induction args as [|c rest IH]; simpl; intros a Hin.
  - contradiction.
  - destruct (last_named (arg_name a) rest) as [b|] eqn:E.
    + exists b. reflexivity.
    + destruct Hin as [-> | Hin].
      * rewrite String.eqb_refl. eexists. reflexivity.
      * destruct (IH a Hin) as [b Hb]. congruence.
Qed.

Lemma dict_get_Some_keys : forall {V : Type} (k : string) (d : dict V),
  In k (dict_keys d) <-> exists v, dict_get k d = Some v.
Proof.
  intros V k d. destruct (dict_get k d) as [v|] eqn:E.
  - split; [intros _; exists v; reflexivity|]. intros _.
    destruct (in_dec string_dec k (dict_keys d)) as [H | H]; [exact H|].
    apply dict_get_None_keys in H. congruence.
  - apply dict_get_None_keys in E. split; [tauto|]. intros [v Hv]. discriminate.
Qed.

(** X4: constructing an OnnxNode raises ValueError when some attribute of
    the node has no populated field; when it returns, the node's name,
    op_type, input and output names are copied, no key occurs twice in attrs,
    and the keys of attrs are exactly the attribute names of the node other
    than "consumed_inputs". *)
Theorem OnnxNode_init_invariants : forall node : NodeProto,
  (forallb populated (np_attribute node) = false ->
     OnnxNode_init node = Raise ValueError)
  /\ (forall n, OnnxNode_init node = Ok n ->
        name n = np_name node /\ op_type n = np_op_type node /\
        inputs n = np_input node /\ outputs n = np_output node /\
        wf_dict (attrs n) /\
        forall k, In k (dict_keys (attrs n)) <->
                  (k <> "consumed_inputs"%string /\
                   exists a, In a (np_attribute node) /\ arg_name a = k)).
Proof.
  intros node. unfold OnnxNode_init, from_onnx. split.
  - intros H. rewrite (from_onnx_loop_raise _ [] H). reflexivity.
  - intros n. destruct (forallb populated (np_attribute node)) eqn:Hall.
    2:{ rewrite (from_onnx_loop_raise _ [] Hall). discriminate. }
    destruct (from_onnx_loop_ok (np_attribute node) [] Hall) as (d & Hd & Hwf & Hget).
    rewrite Hd. cbn [bind dict_pop]. intros H. inversion H; subst; clear H.
    cbn [name op_type inputs outputs attrs].
    repeat (split; [reflexivity|]).
    split; [apply wf_dict_remove, Hwf; constructor|].
    intros k. rewrite dict_get_Some_keys, dict_get_remove.
    destruct (String.eqb k "consumed_inputs") eqn:E.
    + apply String.eqb_eq in E. split.
      * intros [v Hv]. discriminate.
      * intros [Hk _]. contradiction.
    + apply String.eqb_neq in E. rewrite Hget. cbn [dict_get]. split.
      * intros [v Hv]. split; [exact E|].
        destruct (last_named k (np_attribute node)) as [a|] eqn:El; [|discriminate].
        exists a. apply last_named_In. exact El.
      * intros [_ (a & Hin & Hname)]. subst k.
        destruct (last_named_exists _ a Hin) as [b Hb]. rewrite Hb.
        destruct (last_named_In _ _ _ Hb) as [Hinb _].
        rewrite forallb_forall in Hall. specialize (Hall b Hinb).
        unfold populated in Hall.
        destruct (first_populated (candidates b)) as [v|]; [|discriminate].
        exists v. reflexivity.
Qed.

(* ------------------------------------------------------------------ *)
(** ** More about the element-type table *)

Lemma assocZ_In : forall {A : Type} (z : Z) (l : list (Z * A)) (a : A),
  assocZ z l = Some a -> In (z, a) l.
Proof.
  intros A z l a. induction l as [|[z0 a0] r IH]; simpl; intros H.
  - discriminate.
  - destruct (Z.eqb_spec z z0).
    + inversion H; subst. left. reflexivity.
    + right. apply IH. exact H.
Qed.

Lemma tensor_type_lookup_int : forall z d,
  tensor_type_lookup (PyInt z) = Ok d -> In (z, d) tensor_type_to_tf_type.
Proof.
  intros z d. unfold tensor_type_lookup.
  destruct (assocZ z tensor_type_to_tf_type) as [d'|] eqn:E; intros H;
    inversion H; subst.
  apply assocZ_In. exact E.
Qed.

(** X5: the element-type table is one-to-one on integer keys: two ONNX
    element types translated to the same runtime type are the same, and the
    runtime type is always a TensorFlow one. *)
Theorem tensor_type_lookup_injective : forall (z1 z2 : Z) (d : dtype),
  tensor_type_lookup (PyInt z1) = Ok d ->
  tensor_type_lookup (PyInt z2) = Ok d ->
  z1 = z2 /\ d <> np_int32.
Proof.
  intros z1 z2 d H1 H2.
  apply tensor_type_lookup_int in H1. apply tensor_type_lookup_int in H2.
  unfold tensor_type_to_tf_type in *. simpl in H1, H2.
  repeat (destruct H1 as [H1 | H1]; [inversion H1; subst; clear H1|]);
    try contradiction;
    (repeat (destruct H2 as [H2 | H2]; [inversion H2; subst; clear H2|]);
     try contradiction; try discriminate;
     (split; [reflexivity | discriminate])).
Qed.

Lemma tensor_type_lookup_injective_witness :
  DataType.DOUBLE = DataType.DOUBLE /\ tf_float64 <> np_int32.
Proof.
  apply (tensor_type_lookup_injective DataType.DOUBLE DataType.DOUBLE tf_float64);
    reflexivity.
Defined.

(* ------------------------------------------------------------------ *)
(** ** More about the specialized rules *)

Lemma lookups_unbound : forall {V : Type} (d : dict V) (l : list string),
  forallb (fun a => dict_mem a d) l = false ->
  mapM (fun a => dict_getitem a d) l = Raise KeyError.
Proof.
  intros V d. induction l as [|a r IH]; simpl; intros H.
  - discriminate.
  - unfold dict_getitem at 1. unfold dict_mem in H at 1.
    destruct (dict_get a d); cbn [bind andb] in *; [|reflexivity].
    rewrite (IH H). reflexivity.
Qed.

Lemma lookups_ok : forall {V : Type} (d : dict V) (l : list string) (es : list V),
  mapM (fun a => dict_getitem a d) l = Ok es ->
  Forall2 (fun a e => dict_get a d = Some e) l es.
Proof.
  intros V d. induction l as [|a r IH]; simpl; intros es H.
  - inversion H. constructor.
  - unfold dict_getitem at 1 in H.
    destruct (dict_get a d) as [e|] eqn:E; cbn [bind] in H; [|discriminate].
    destruct (mapM _ r) as [es'|] eqn:Er; cbn [bind] in H; [|discriminate].
    inversion H; subst. constructor; [exact E | apply IH; reflexivity].
Qed.

(** X6: handle_sum raises KeyError as soon as one input name of the node is
    not bound in input_dict, and whenever it returns, the single invocation
    reduces along axis 0 the stack of exactly the tensors bound to the
    node's input names, in the node's order. *)
Theorem handle_sum_lookups : forall (node : OnnxNode) (input_dict : dict tfval),
  (forallb (fun a => dict_mem a input_dict) (inputs node) = false ->
     handle_sum node input_dict = Raise KeyError)
  /\ (forall ops, handle_sum node input_dict = Ok ops ->
        exists es,
          ops = [Call tf_reduce_sum [Call tf_stack [TList es] []]
                   [("axis"%string, Py (Obj (PyInt 0)))]]
          /\ Forall2 (fun a e => dict_get a input_dict = Some e) (inputs node) es).
Proof.
  intros node input_dict. unfold handle_sum. split.
  - intros H. rewrite (lookups_unbound _ _ H). reflexivity.
  - intros ops.
    destruct (mapM (fun a => dict_getitem a input_dict) (inputs node)) as [es|e] eqn:E;
      cbn [bind]; intros H; inversion H; subst.
    exists es. split; [reflexivity|]. apply lookups_ok. exact E.
Qed.

(** X7: handle_sub needs a "broadcast" attribute (without it the call
    raises) but never passes it on: two nodes with the same input names that
    both carry "broadcast" get the same result, whatever the values of
    "broadcast" and "axis", and a result is always one tf.subtract of the
    tensors bound to the first two input names. *)
Theorem handle_sub_attributes_unused :
  forall (n1 n2 : OnnxNode) (input_dict : dict tfval),
  inputs n1 = inputs n2 ->
  dict_mem "broadcast" (attrs n1) = true ->
  dict_mem "broadcast" (attrs n2) = true ->
  handle_sub n1 input_dict = handle_sub n2 input_dict
  /\ (forall ops, handle_sub n1 input_dict = Ok ops ->
        exists x y, input_at 0 n1 input_dict = Ok x /\
                    input_at 1 n1 input_dict = Ok y /\
                    ops = [Call tf_subtract [x; y] []])
  /\ (forall n, dict_mem "broadcast" (attrs n) = false ->
        exists e, handle_sub n input_dict = Raise e).
Proof.
  intros n1 n2 input_dict Hin H1 H2.
  assert (Hi : forall i, input_at i n2 input_dict = input_at i n1 input_dict).
  { intros i. unfold input_at. rewrite Hin. reflexivity. }
  assert (Hb : forall n, dict_mem "broadcast" (attrs n) = true ->
                 exists b, dict_getitem "broadcast" (attrs n) = Ok b).
  { intros n Hn. unfold dict_mem in Hn. unfold dict_getitem.
    destruct (dict_get "broadcast" (attrs n)) as [b|]; [|discriminate].
    exists b. reflexivity. }
  destruct (Hb n1 H1) as [b1 Hb1]. destruct (Hb n2 H2) as [b2 Hb2].
  unfold handle_sub. rewrite !Hi, Hb1, Hb2.
  split; [|split].
  - destruct (input_at 0 n1 input_dict); cbn [bind]; [|reflexivity].
    destruct (input_at 1 n1 input_dict); reflexivity.
  - intros ops.
    destruct (input_at 0 n1 input_dict) as [x|]; cbn [bind]; [|discriminate].
    destruct (input_at 1 n1 input_dict) as [y|]; cbn [bind]; [|discriminate].
    intros H. inversion H; subst. exists x, y. repeat split.
  - intros n Hn.
    assert (Hg : dict_getitem "broadcast" (attrs n) = Raise KeyError).
    { unfold dict_mem in Hn. unfold dict_getitem.
      destruct (dict_get "broadcast" (attrs n)); [discriminate | reflexivity]. }
    rewrite Hg.
    destruct (input_at 0 n input_dict); cbn [bind]; [|eexists; reflexivity].
    destruct (input_at 1 n input_dict); cbn [bind]; eexists; reflexivity.
Qed.

Lemma handle_sub_attributes_unused_witness :
  handle_sub sub_node two_inputs = handle_sub sub_node_axis two_inputs.
Proof.
  exact (proj1 (handle_sub_attributes_unused sub_node sub_node_axis two_inputs
                  eq_refl eq_refl eq_refl)).
Defined.

(** X8: when a Split node carries a "split" attribute, handle_split takes
    the sizes from it and never reads a second input: its result depends on
    input_dict only through the tensor bound to the first input name.
    Without the attribute a node with fewer than two inputs raises
    IndexError. *)
Theorem handle_split_attribute_first :
  forall (node : OnnxNode) (d1 d2 : dict tfval),
  dict_mem "split" (attrs node) = true ->
  input_at 0 node d1 = input_at 0 node d2 ->
  handle_split node d1 = handle_split node d2
  /\ (forall n d, dict_mem "split" (attrs n) = false ->
        (List.length (inputs n) < 2)%nat ->
        handle_split n d = Raise IndexError).
Proof.
  intros node d1 d2 Hsplit Hfirst. split.
  - unfold handle_split. rewrite Hsplit, Hfirst. reflexivity.
  - intros n d Hn Hlen. unfold handle_split, input_at, item_at. rewrite Hn.
    destruct (inputs n) as [|a [|b r]]; simpl in Hlen; try lia; reflexivity.
Qed.

Lemma handle_split_attribute_first_witness :
  handle_split split_node_attr one_input = handle_split split_node_attr two_inputs.
Proof.
  exact (proj1 (handle_split_attribute_first split_node_attr one_input two_inputs
                  eq_refl eq_refl)).
Defined.

(* ------------------------------------------------------------------ *)
(** ** More about run_node *)

Lemma OnnxNode_init_outputs : forall node n,
  OnnxNode_init node = Ok n ->
  outputs n = np_output node /\ inputs n = np_input node.
Proof.
  intros node n. unfold OnnxNode_init.
  destruct (from_onnx (np_attribute node)); cbn [bind dict_pop]; intros H;
    inversion H; subst. split; reflexivity.
Qed.

Lemma translation_unsupported : forall node input_dict,
  supported node = false -> _onnx_node_to_tensorflow_op node input_dict = Ok None.
Proof.
  intros node input_dict H. unfold supported in H.
  apply orb_false_iff in H. destruct H as [H1 H2].
  unfold _onnx_node_to_tensorflow_op. rewrite H1, H2. reflexivity.
Qed.

(** X9: at run_node an operator without a rule does not fail silently: for
    a node that the checker accepts, that is constructed and whose inputs
    are accepted, run_node raises TypeError (it iterates over the None the
    translation returned), whatever the session. *)
Theorem run_node_unsupported_raises :
  forall (V : Type) (check_node : NodeProto -> bool)
         (isidentifier iskeyword : string -> bool)
         (sess_run : string -> tfval -> result V)
         (node : NodeProto) (inputs' : run_inputs) (device : Device) (n : OnnxNode),
  check_node node = true ->
  OnnxNode_init node = Ok n ->
  inputs_accepted n inputs' = true ->
  supported n = false ->
  run_node check_node isidentifier iskeyword sess_run node inputs' device
  = Raise TypeError.
Proof.
  intros V check_node isidentifier iskeyword sess_run node inputs' device n
    Hcheck Hinit Hacc Hsup.
  rewrite (run_node_unfold check_node isidentifier iskeyword sess_run node inputs'
             device n Hcheck Hinit Hacc).
  rewrite (translation_unsupported _ _ Hsup). reflexivity.
Qed.

Lemma run_node_unsupported_raises_witness :
  run_node accept_all ascii_identifier python_keyword eval_session
    conv_proto sum_two_inputs cpu = Raise TypeError.
Proof.
  apply (run_node_unsupported_raises ndarray accept_all ascii_identifier
           python_keyword eval_session conv_proto sum_two_inputs cpu
           (mkOnnxNode "c" "Conv" [("kernel_shape"%string, PyInts [3%Z; 3%Z])] None
              ["x"%string; "w"%string] ["y"%string]));
    reflexivity.
Defined.

(** X10: the order of run_node's checks, all made before anything is
    translated: a node the checker rejects gives ValidationError whatever
    its attributes, inputs and operator; an accepted node with an attribute
    that has no populated field gives ValueError whatever the inputs and the
    operator; and an accepted node with populated attributes, given a list
    of inputs whose length differs from the number of input names, gives
    AssertionError whatever the operator. *)
Theorem run_node_checks_first :
  forall (V : Type) (check_node : NodeProto -> bool)
         (isidentifier iskeyword : string -> bool)
         (sess_run : string -> tfval -> result V)
         (node : NodeProto) (device : Device),
  (check_node node = false ->
     forall inputs',
       run_node check_node isidentifier iskeyword sess_run node inputs' device
       = Raise ValidationError)
  /\ (check_node node = true ->
      forallb populated (np_attribute node) = false ->
      forall inputs',
        run_node check_node isidentifier iskeyword sess_run node inputs' device
        = Raise ValueError)
  /\ (check_node node = true ->
      forallb populated (np_attribute node) = true ->
      forall l, List.length l <> List.length (np_input node) ->
        run_node check_node isidentifier iskeyword sess_run node (InputList l) device
        = Raise AssertionError).
Proof.
  intros V check_node isidentifier iskeyword sess_run node device.
  split; [|split].
  - intros Hc inputs'. unfold run_node. rewrite Hc. reflexivity.
  - intros Hc H inputs'. unfold run_node, OnnxNode_init, from_onnx. rewrite Hc.
    rewrite (from_onnx_loop_raise _ [] H). reflexivity.
  - intros Hc H l Hlen. unfold run_node. rewrite Hc.
    destruct (from_onnx_loop_ok (np_attribute node) [] H) as (d & Hd & _).
    unfold OnnxNode_init, from_onnx. rewrite Hd. cbn [bind dict_pop inputs].
    destruct (Nat.eqb_spec (List.length (np_input node)) (List.length l)) as [E | E].
    + exfalso. apply Hlen. symmetry. exact E.
    + reflexivity.
Qed.



Lemma dict_mem_keys : forall {V W : Type} (d1 : dict V) (d2 : dict W) (k : string),
  dict_keys d1 = dict_keys d2 -> dict_mem k d1 = dict_mem k d2.
Proof.
  intros V W. unfold dict_mem, dict_keys.
  induction d1 as [|[k1 v1] r1 IH]; intros [|[k2 v2] r2] k H; simpl in *;
    try discriminate; [reflexivity|].
  inversion H; subst. destruct (String.eqb k k2); [reflexivity|].
  apply IH. assumption.
Qed.

Lemma dict_of_pairs_keys_acc :
  forall {V : Type} (l1 l2 : list (string * V)) (acc1 acc2 : dict V),
  map fst l1 = map fst l2 -> dict_keys acc1 = dict_keys acc2 ->
  dict_keys (fold_left (fun d kv => dict_set (fst kv) (snd kv) d) l1 acc1) =
  dict_keys (fold_left (fun d kv => dict_set (fst kv) (snd kv) d) l2 acc2).
Proof.
  intros V. induction l1 as [|[k1 v1] r1 IH]; intros [|[k2 v2] r2] acc1 acc2 Hl Hacc;
    simpl in *; try discriminate; [exact Hacc|].
  inversion Hl; subst. apply IH; [assumption|].
  rewrite !dict_keys_set, (dict_mem_keys acc1 acc2 k2 Hacc), Hacc. reflexivity.
Qed.

(** Two dictionaries with the same keys in the same order and the same
    value under every key are the same dictionary. *)
Lemma dict_ext : forall {V : Type} (d1 d2 : dict V),
  wf_dict d1 -> dict_keys d1 = dict_keys d2 ->
  (forall k, dict_get k d1 = dict_get k d2) -> d1 = d2.
Proof.
  intros V. unfold wf_dict, dict_keys.
  induction d1 as [|[k1 v1] r1 IH]; intros [|[k2 v2] r2] Hwf Hkeys Hget;
    simpl in *; try discriminate; [reflexivity|].
  inversion Hkeys; subst. inversion Hwf as [|? ? Hnot Hwf']; subst.
  pose proof (Hget k2) as Hk. rewrite String.eqb_refl in Hk. inversion Hk; subst.
  f_equal. apply IH; [assumption | assumption |].
  intros k. specialize (Hget k). destruct (String.eqb k k2) eqn:E; [|exact Hget].
  apply String.eqb_eq in E. subst k.
  assert (G1 : dict_get k2 r1 = None) by (apply dict_get_None_keys; exact Hnot).
  assert (G2 : dict_get k2 r2 = None).
  { apply dict_get_None_keys. unfold dict_keys. rewrite <- H1. exact Hnot. }
  congruence.
Qed.

Lemma last_binding_None : forall {V : Type} (l : list (string * V)) (k : string),
  last_binding k l = None -> ~ In k (map fst l).
Proof.
  intros V l k. induction l as [|[k0 v0] r IH]; simpl; intros H.
  - tauto.
  - destruct (last_binding k r); [discriminate|].
    destruct (String.eqb k k0) eqn:E; [discriminate|].
    apply String.eqb_neq in E. intros [H1 | H1]; [congruence|]. apply IH; auto.
Qed.

Lemma combine_keys : forall {V : Type} (ks : list string) (vs : list V),
  List.length vs = List.length ks -> map fst (combine ks vs) = ks.
Proof.
  intros V. induction ks as [|k r IH]; intros [|v vs] H; simpl in *;
    try discriminate; [reflexivity|].
  f_equal. apply IH. lia.
Qed.

(** In [dict(zip(names, values))] a name keeps the value of its last
    occurrence: values at other positions do not matter. *)
Lemma last_binding_combine_agree :
  forall {V : Type} (names : list string) (l l' : list V),
  List.length l = List.length names -> List.length l' = List.length names ->
  (forall i, (forall j, (i < j)%nat -> nth_error names j <> nth_error names i) ->
             nth_error l i = nth_error l' i) ->
  forall k, last_binding k (combine names l) = last_binding k (combine names l').
Proof.
  intros V. induction names as [|k0 r IH]; intros [|v t] [|v' t'] Hl Hl' H k;
    simpl in *; try discriminate; [reflexivity|].
  assert (Hrec : last_binding k (combine r t) = last_binding k (combine r t')).
  { apply IH; [lia | lia |]. intros i Hi. apply (H (S i)).
    intros [|j] Hj; [lia|]. simpl. apply Hi. lia. }
  rewrite <- Hrec. destruct (last_binding k (combine r t)) eqn:E; [reflexivity|].
  destruct (String.eqb k k0) eqn:E0; [|reflexivity].
  apply String.eqb_eq in E0. subst k0.
  apply last_binding_None in E. rewrite combine_keys in E by lia.
  assert (H0 : Some v = Some v').
  { apply (H 0%nat). intros [|j] Hj; [lia|]. simpl. intros Hn.
    apply E. eapply nth_error_In. exact Hn. }
  inversion H0. reflexivity.
Qed.

Lemma feed_agree : forall {V : Type} (names : list string) (l l' : list V),
  List.length l = List.length names -> List.length l' = List.length names ->
  (forall i, (forall j, (i < j)%nat -> nth_error names j <> nth_error names i) ->
             nth_error l i = nth_error l' i) ->
  dict_of_pairs (combine names l) = dict_of_pairs (combine names l').
Proof.
  intros V names l l' Hl Hl' H. apply dict_ext.
  - apply wf_dict_of_pairs.
  - unfold dict_of_pairs. apply dict_of_pairs_keys_acc; [|reflexivity].
    rewrite !combine_keys by assumption. reflexivity.
  - intros k. rewrite !dict_get_of_pairs.
    apply last_binding_combine_agree; assumption.
Qed.

(** X12: when a node lists an input name more than once, run_node feeds the
    value given at the last position of that name to every use of it: two
    lists of inputs that agree at the last position of every name give the
    same result, whatever stands at the earlier positions. *)
Theorem run_node_last_position_wins :
  forall (V : Type) (check_node : NodeProto -> bool)
         (isidentifier iskeyword : string -> bool)
         (sess_run : string -> tfval -> result V)
         (node : NodeProto) (l l' : list ndarray) (device : Device),
  List.length l = List.length l' ->
  (forall i,
     (forall j, (i < j)%nat -> nth_error (np_input node) j <> nth_error (np_input node) i) ->
     nth_error l i = nth_error l' i) ->
  run_node check_node isidentifier iskeyword sess_run node (InputList l) device =
  run_node check_node isidentifier iskeyword sess_run node (InputList l') device.
Proof.
  intros V check_node isidentifier iskeyword sess_run node l l' device Hlen H.
  unfold run_node. destruct (check_node node); [|reflexivity].
  destruct (OnnxNode_init node) as [n|] eqn:Hinit; cbn [bind]; [|reflexivity].
  destruct (OnnxNode_init_outputs _ _ Hinit) as [_ Hin]. rewrite Hin, <- Hlen.
  destruct (Nat.eqb_spec (List.length (np_input node)) (List.length l)) as [E | E];
    [|reflexivity].
  rewrite (feed_agree (np_input node) l l'); [reflexivity | lia | lia | exact H].
Qed.

Lemma run_node_last_position_wins_witness :
  run_node accept_all ascii_identifier python_keyword eval_session sum_twice_proto
    (InputList [mkArray [1%nat] [5]%Q; mkArray [1%nat] [7]%Q]) cpu =
  run_node accept_all ascii_identifier python_keyword eval_session sum_twice_proto
    (InputList [mkArray [1%nat] [100]%Q; mkArray [1%nat] [7]%Q]) cpu.
Proof.
  apply (run_node_last_position_wins ndarray accept_all ascii_identifier
           python_keyword eval_session sum_twice_proto
           [mkArray [1%nat] [5]%Q; mkArray [1%nat] [7]%Q]
           [mkArray [1%nat] [100]%Q; mkArray [1%nat] [7]%Q] cpu).
  - reflexivity.
  - intros [|[|i]] Hlast.
    + exfalso. apply (Hlast 1%nat); [lia | reflexivity].
    + reflexivity.
    + destruct i; reflexivity.
Defined.

Lemma OnnxNode_init_ok : forall node,
  forallb populated (np_attribute node) = true ->
  exists at' ci,
    OnnxNode_init node =
    Ok (mkOnnxNode (np_name node) (np_op_type node) at' ci
          (np_input node) (np_output node)).
Proof.
  intros node H.
  destruct (from_onnx_loop_ok (np_attribute node) [] H) as (d & Hd & _).
  unfold OnnxNode_init, from_onnx. rewrite Hd. cbn [bind dict_pop].
  eexists. eexists. reflexivity.
Qed.

(** X13: run_node on a PRelu node that the checker accepts, end to end with
    exact arithmetic: given two scalars under two different input names it
    returns 'Outputs' with the one value relu(x) + slope * (x - |x|) * 0.5,
    which equals x when x >= 0 and slope * x otherwise; when the node uses
    one name for both inputs, the second value is used for both and the
    first is ignored.  The field of the tuple is the output name as
    namedtuple renames it, and the value is indexed by the output name. *)
Theorem run_node_p_relu :
  forall (check_node : NodeProto -> bool) (isidentifier iskeyword : string -> bool)
         (nm : string) (at' : list AttributeProto) (nx ns y : string)
         (x slope : Q) (device : Device),
  check_node (mkNodeProto nm "PRelu" at' [nx; ns] [y]) = true ->
  forallb populated at' = true ->
  (String.eqb nx ns = false ->
     run_node check_node isidentifier iskeyword eval_session
       (mkNodeProto nm "PRelu" at' [nx; ns] [y])
       (InputList [scalar x; scalar slope]) device =
     Ok (mkNamedTuple "Outputs" (rename_fields isidentifier iskeyword [y])
           [(y, 0%nat)]
           [scalar (relu x + slope * (x - Qabs x) * (1 # 2))%Q]))
  /\ (String.eqb nx ns = true ->
     run_node check_node isidentifier iskeyword eval_session
       (mkNodeProto nm "PRelu" at' [nx; ns] [y])
       (InputList [scalar x; scalar slope]) device =
     Ok (mkNamedTuple "Outputs" (rename_fields isidentifier iskeyword [y])
           [(y, 0%nat)]
           [scalar (relu slope + slope * (slope - Qabs slope) * (1 # 2))%Q]))
  /\ (relu x + slope * (x - Qabs x) * (1 # 2) == p_relu_piecewise x slope)%Q.
Proof.
  intros check_node isidentifier iskeyword nm at' nx ns y x slope device Hcheck Hpop.
  destruct (OnnxNode_init_ok (mkNodeProto nm "PRelu" at' [nx; ns] [y]) Hpop)
    as (d & ci & Hinit). cbn [np_name np_op_type np_input np_output] in Hinit.
  split; [|split; [|apply p_relu_formula]]; intros Hne;
    rewrite (run_node_unfold check_node isidentifier iskeyword eval_session _
               (InputList [scalar x; scalar slope]) device _ Hcheck Hinit eq_refl);
    unfold _onnx_node_to_tensorflow_op; cbn [op_type];
    change (op_name_to_lower "PRelu") with "p_relu"%string;
    change (dict_mem "p_relu"%string onnx_tf_op_map) with false; cbv iota;
    change (dict_mem ("handle_" ++ "p_relu")%string handlers) with true; cbv iota;
    change (dict_getitem ("handle_" ++ "p_relu")%string handlers) with (Ok handle_p_relu);
    cbn [bind];
    unfold handle_p_relu, input_at, item_at, feed_of, constants_of, dict_of_pairs,
      dict_getitem;
    cbn [inputs combine fold_left fst snd dict_set nth_error map bind];
    repeat (rewrite ?(eqb_flip ns nx), ?Hne, ?String.eqb_refl;
            cbn [map fold_left fst snd dict_set dict_get bind]);
    reflexivity.
Qed.

Lemma run_node_p_relu_witness :
  run_node accept_all ascii_identifier python_keyword eval_session
    (mkNodeProto "p" "PRelu" [] ["x"; "slope"] ["y"])
    (InputList [scalar (-3 # 1); scalar (1 # 4)]) cpu =
  Ok (mkNamedTuple "Outputs" ["y"%string] [("y"%string, 0%nat)]
        [scalar (relu (-3 # 1) + (1 # 4) * ((-3 # 1) - Qabs (-3 # 1)) * (1 # 2))%Q]).
Proof.
  exact (proj1 (run_node_p_relu accept_all ascii_identifier python_keyword
                  "p" [] "x" "slope" "y" (-3 # 1) (1 # 4) cpu eq_refl eq_refl)
           eq_refl).
Defined.

(** The tensor [handle_sum] builds evaluates to the element-wise sum. *)
Lemma eval_sum_of_stack :
  forall (es : list tfval) (first : ndarray) (rest : list ndarray) (s : list nat),
  sequence (map eval es) = Some (first :: rest) ->
  forallb (has_shape s) (first :: rest) = true ->
  exists t,
    eval (Call tf_reduce_sum [Call tf_stack [TList es] []]
            [("axis"%string, Py (Obj (PyInt 0)))]) = Some t
    /\ shape t = s
    /\ Forall2 Qeq (data t) (data (sum_arrays first rest)).
Proof.
  intros es first rest s Hts Hshape.
  assert (Hall : Forall (fun t => shape t = s /\ List.length (data t) = numel s)
                   (first :: rest)).
  { apply Forall_forall. intros t Ht. apply has_shape_spec.
    rewrite forallb_forall in Hshape. apply Hshape. exact Ht. }
  inversion Hall as [|? ? [Hs1 Hl1] Hrest]; subst.
  assert (Hlens : Forall (fun t => List.length (data t) = numel (shape first)) rest).
  { eapply Forall_impl; [|exact Hrest]. intros t [_ H]. exact H. }
  assert (Hsame : forallb (fun b => shape_eqb (shape first) (shape b)) rest = true).
  { apply forallb_forall. intros t Ht. apply shape_eqb_eq.
    rewrite Forall_forall in Hrest. destruct (Hrest t Ht) as [H _]. congruence. }
  rewrite eval_reduce_sum_stack, Hts. unfold stack. rewrite Hsame.
  unfold reduce_sum_axis0. cbn [shape data]. eexists. split; [reflexivity|].
  split; [reflexivity|]. cbn [data]. unfold sum_arrays.
  destruct (sum_arrays_column (numel (shape first)) rest first Hl1 Hlens)
    as [Hlen Hnth].
  apply Forall2_pointwise.
  - rewrite length_map, length_seq, Hlen. reflexivity.
  - intros j Hj. rewrite length_map, length_seq in Hj.
    rewrite nth_map_seq by exact Hj. rewrite (Hnth j Hj).
    rewrite (stacked_column (first :: rest) (numel (shape first)) j);
      [reflexivity | constructor; assumption | exact Hj].
Qed.

Lemma lookups_indexed : forall {V : Type} (d : dict V) (names : list string) (cs : list V),
  List.length names = List.length cs ->
  (forall i k c, nth_error names i = Some k -> nth_error cs i = Some c ->
                 dict_get k d = Some c) ->
  mapM (fun a => dict_getitem a d) names = Ok cs.
Proof.
  intros V d. induction names as [|k r IH]; intros [|c cs] Hlen H; simpl in *;
    try discriminate; [reflexivity|].
  unfold dict_getitem at 1. rewrite (H 0%nat k c eq_refl eq_refl). cbn [bind].
  rewrite (IH cs); [reflexivity | lia |].
  intros i k' c' Hk Hc. apply (H (S i)); assumption.
Qed.

Lemma sequence_eval_constants : forall l : list ndarray,
  sequence (map eval (map (fun a => Call tf_constant [Array a] []) l)) = Some l.
Proof.
  induction l as [|a r IH]; simpl.
  - reflexivity.
  - simpl in IH. rewrite IH. reflexivity.
Qed.

(** X14: run_node on a Sum node that the checker accepts, end to end with
    exact arithmetic: given a list of one or more arrays of one shape under
    pairwise different input names, it returns 'Outputs' with one array of
    that shape which is, element by element, the sum of all the inputs.  The
    field of the tuple is the output name as namedtuple renames it, and the
    value is indexed by the output name. *)
Theorem run_node_sum :
  forall (check_node : NodeProto -> bool) (isidentifier iskeyword : string -> bool)
         (nm : string) (at' : list AttributeProto) (names : list string)
         (y : string) (first : ndarray) (rest : list ndarray) (s : list nat)
         (device : Device),
  check_node (mkNodeProto nm "Sum" at' names [y]) = true ->
  forallb populated at' = true ->
  NoDup names ->
  List.length names = List.length (first :: rest) ->
  forallb (has_shape s) (first :: rest) = true ->
  exists t,
    run_node check_node isidentifier iskeyword eval_session
      (mkNodeProto nm "Sum" at' names [y])
      (InputList (first :: rest)) device =
    Ok (mkNamedTuple "Outputs" (rename_fields isidentifier iskeyword [y])
          [(y, 0%nat)] [t])
    /\ shape t = s
    /\ Forall2 Qeq (data t) (data (sum_arrays first rest)).
Proof.
  intros check_node isidentifier iskeyword nm at' names y first rest s device
    Hcheck Hpop Hnd Hlen Hshape.
  destruct (OnnxNode_init_ok (mkNodeProto nm "Sum" at' names [y]) Hpop)
    as (d & ci & Hinit). cbn [np_name np_op_type np_input np_output] in Hinit.
  set (cs := map (fun a => Call tf_constant [Array a] []) (first :: rest)).
  destruct (eval_sum_of_stack cs first rest s (sequence_eval_constants _) Hshape)
    as (t & Ht & Hs & Hsum).
  exists t. split; [|split; assumption].
  rewrite (run_node_unfold check_node isidentifier iskeyword eval_session _
             (InputList (first :: rest)) device _ Hcheck Hinit
             (proj2 (Nat.eqb_eq _ _) Hlen)).
  unfold _onnx_node_to_tensorflow_op. cbn [op_type].
  change (op_name_to_lower "Sum") with "sum"%string.
  change (dict_mem "sum"%string onnx_tf_op_map) with false. cbv iota.
  change (dict_mem ("handle_" ++ "sum")%string handlers) with true. cbv iota.
  change (dict_getitem ("handle_" ++ "sum")%string handlers) with (Ok handle_sum).
  cbn [bind].
  rewrite (handle_sum_builds _ _ cs).
  - cbn [bind mapM]. unfold eval_session. rewrite Ht. reflexivity.
  - cbn [inputs feed_of]. apply lookups_indexed.
    + unfold cs. rewrite length_map. exact Hlen.
    + intros i k c Hk Hc. unfold cs in Hc.
      rewrite nth_error_map in Hc.
      destruct (nth_error (first :: rest) i) as [a|] eqn:Ea; [|discriminate].
      cbn [option_map] in Hc. inversion Hc; subst c.
      rewrite constants_of_get by apply wf_dict_of_pairs.
      rewrite dict_of_pairs_nodup by (apply combine_wf; exact Hnd).
      rewrite (combine_get _ _ i k a Hnd Hk Ea). reflexivity.
Qed.

Lemma run_node_sum_witness :
  exists t,
    run_node accept_all ascii_identifier python_keyword eval_session
      (mkNodeProto "s" "Sum" [] ["a"; "b"; "c"]%string ["total"%string])
      (InputList [mkArray [2%nat] [1; 2]%Q; mkArray [2%nat] [10; 20]%Q;
                  mkArray [2%nat] [100; 200]%Q]) cpu =
    Ok (mkNamedTuple "Outputs" ["total"%string] [("total"%string, 0%nat)] [t])
    /\ shape t = [2%nat]
    /\ Forall2 Qeq (data t)
         (data (sum_arrays (mkArray [2%nat] [1; 2]%Q)
                  [mkArray [2%nat] [10; 20]%Q; mkArray [2%nat] [100; 200]%Q])).
Proof.
  apply (run_node_sum accept_all ascii_identifier python_keyword
           "s" [] ["a"; "b"; "c"]%string "total"
           (mkArray [2%nat] [1; 2]%Q)
           [mkArray [2%nat] [10; 20]%Q; mkArray [2%nat] [100; 200]%Q] [2%nat] cpu).
  - reflexivity.
  - reflexivity.
  - repeat constructor; simpl; intuition discriminate.
  - reflexivity.
  - reflexivity.
Defined.

(* ------------------------------------------------------------------ *)
(** ** handle_trivial and the order of attributes *)

Lemma mapM_perm : forall {A B : Type} (f : A -> result B) (l l' : list A),
  Permutation l l' ->
  forall bs, mapM f l = Ok bs ->
  exists bs', mapM f l' = Ok bs' /\ Permutation bs bs'.
Proof.
  intros A B f l l' HP. induction HP as [|x l l' HP IH|x y l|l l' l'' HP1 IH1 HP2 IH2];
    intros bs H.
  - exists bs. split; [exact H|]. simpl in H. inversion H. constructor.
  - simpl in *. destruct (f x) as [b|]; cbn [bind] in *; [|discriminate].
    destruct (mapM f l) as [bs0|]; cbn [bind] in *; [|discriminate].
    inversion H; subst. destruct (IH bs0 eq_refl) as (bs' & Hbs' & HP').
    rewrite Hbs'. exists (b :: bs'). split; [reflexivity|]. constructor. exact HP'.
  - simpl in *. destruct (f y) as [by'|]; cbn [bind] in *; [|discriminate].
    destruct (f x) as [bx|]; cbn [bind] in *; [|discriminate].
    destruct (mapM f l) as [bs0|]; cbn [bind] in *; [|discriminate].
    inversion H; subst. exists (bx :: by' :: bs0). split; [reflexivity|].
    apply perm_swap.
  - destruct (IH1 bs H) as (bs1 & H1 & HP1').
    destruct (IH2 bs1 H1) as (bs2 & H2 & HP2').
    exists bs2. split; [exact H2|]. eapply perm_trans; eassumption.
Qed.

Lemma dict_get_perm : forall {V : Type} (d1 d2 : dict V) (k : string),
  wf_dict d1 -> Permutation d1 d2 -> dict_get k d1 = dict_get k d2.
Proof.
  intros V d1 d2 k Hwf HP.
  assert (Hwf2 : wf_dict d2).
  { unfold wf_dict, dict_keys in *. eapply Permutation_NoDup; [|exact Hwf].
    apply Permutation_map. exact HP. }
  destruct (dict_get k d1) as [v|] eqn:E.
  - symmetry. apply dict_get_In; [exact Hwf2|].
    eapply Permutation_in; [exact HP|].
    clear Hwf Hwf2 HP. induction d1 as [|[k0 v0] r IH]; simpl in *; [discriminate|].
    destruct (String.eqb k k0) eqn:E0.
    + apply String.eqb_eq in E0. inversion E; subst. left. reflexivity.
    + right. apply IH. exact E.
  - symmetry. apply dict_get_None_keys. apply dict_get_None_keys in E.
    intros Hin. apply E. unfold dict_keys in *.
    eapply Permutation_in; [|exact Hin]. apply Permutation_map.
    apply Permutation_sym. exact HP.
Qed.

Lemma rename_all_keys : forall vs,
  map fst (rename_all vs) = map tf_name (map fst vs).
Proof.
  intros vs. unfold rename_all. rewrite !map_map. reflexivity.
Qed.

(** X15: when no two attributes of a node end up with the same TensorFlow
    name, the order in which the attribute dictionary is iterated does not
    matter to handle_trivial: with the attributes in any other order the
    call raises or returns alike, and a returned invocation has the same
    operator, the same positional arguments and the same keyword arguments
    (every keyword bound to the same value). *)
Theorem handle_trivial_order_independent :
  forall (n1 n2 : OnnxNode) (input_dict : dict tfval),
  op_type n1 = op_type n2 ->
  inputs n1 = inputs n2 ->
  wf_dict (attrs n1) ->
  Permutation (attrs n1) (attrs n2) ->
  NoDup (map tf_name (dict_keys (attrs n1))) ->
  match handle_trivial n1 input_dict, handle_trivial n2 input_dict with
  | Ok ops1, Ok ops2 =>
      exists op ins kw1 kw2,
        ops1 = [Call op ins kw1] /\ ops2 = [Call op ins kw2] /\
        Permutation kw1 kw2 /\
        forall k, dict_get k kw1 = dict_get k kw2
  | Raise _, Raise _ => True
  | _, _ => False
  end.
Proof.
  intros n1 n2 input_dict Hop Hin Hwf HP Hnames.
  assert (Hwf2 : wf_dict (attrs n2)).
  { unfold wf_dict, dict_keys in *. eapply Permutation_NoDup; [|exact Hwf].
    apply Permutation_map. exact HP. }
  rewrite (handle_trivial_refines n1 input_dict Hwf).
  rewrite (handle_trivial_refines n2 input_dict Hwf2).
  rewrite <- Hop, <- Hin.
  destruct (coerce_all (attrs n1)) as [vs1|e1] eqn:E1;
    destruct (coerce_all (attrs n2)) as [vs2|e2] eqn:E2; cbn [bind].
  - destruct (mapM_perm _ _ _ HP vs1 E1) as (vs2' & E2' & HPv).
    unfold coerce_all in E2. rewrite E2 in E2'. inversion E2'; subst vs2'.
    destruct (mapM (fun name => dict_getitem name input_dict) (inputs n1)) as [ins|];
      cbn [bind]; [|exact I].
    destruct (dict_getitem (op_name_to_lower (op_type n1)) onnx_tf_op_map) as [op|];
      cbn [bind]; [|exact I].
    assert (Hnd1 : NoDup (map fst (rename_all vs1))).
    { rewrite rename_all_keys, (coerce_all_keys _ _ E1). exact Hnames. }
    assert (HPr : Permutation (rename_all vs1) (rename_all vs2)).
    { unfold rename_all. apply Permutation_map. exact HPv. }
    assert (Hnd2 : NoDup (map fst (rename_all vs2))).
    { eapply Permutation_NoDup; [|exact Hnd1]. apply Permutation_map. exact HPr. }
    rewrite (dict_of_pairs_nodup _ Hnd1), (dict_of_pairs_nodup _ Hnd2).
    exists op, ins, (as_kwargs (rename_all vs1)), (as_kwargs (rename_all vs2)).
    split; [reflexivity|]. split; [reflexivity|].
    assert (HPk : Permutation (as_kwargs (rename_all vs1)) (as_kwargs (rename_all vs2))).
    { unfold as_kwargs. apply Permutation_map. exact HPr. }
    split; [exact HPk|]. intros k. apply dict_get_perm; [|exact HPk].
    unfold wf_dict, dict_keys, as_kwargs. rewrite map_map. cbn [fst]. exact Hnd1.
  - destruct (mapM_perm _ _ _ HP vs1 E1) as (vs2' & E2' & _).
    unfold coerce_all in E2. rewrite E2 in E2'. discriminate.
  - destruct (mapM_perm _ _ _ (Permutation_sym HP) vs2 E2) as (vs1' & E1' & _).
    unfold coerce_all in E1. rewrite E1 in E1'. discriminate.
  - exact I.
Qed.

Lemma handle_trivial_order_independent_witness :
  match handle_trivial reduce_sum_node one_input,
        handle_trivial reduce_sum_node_swapped one_input with
  | Ok ops1, Ok ops2 =>
      exists op ins kw1 kw2,
        ops1 = [Call op ins kw1] /\ ops2 = [Call op ins kw2] /\
        Permutation kw1 kw2 /\
        forall k, dict_get k kw1 = dict_get k kw2
  | Raise _, Raise _ => True
  | _, _ => False
  end.
Proof.
  apply (handle_trivial_order_independent reduce_sum_node reduce_sum_node_swapped
           one_input).
  - reflexivity.
  - reflexivity.
  - repeat constructor; simpl; intuition discriminate.
  - apply perm_swap.
  - repeat constructor; simpl; intuition discriminate.
Defined.

(* ------------------------------------------------------------------ *)
(** ** All rules together *)

Lemma input_at_agree : forall i node d1 d2,
  (forall a, In a (inputs node) -> dict_get a d1 = dict_get a d2) ->
  input_at i node d1 = input_at i node d2.
Proof.
  intros i node d1 d2 H. unfold input_at, item_at.
  destruct (nth_error (inputs node) i) as [a|] eqn:E; [|reflexivity].
  cbn [bind]. unfold dict_getitem. rewrite (H a); [reflexivity|].
  eapply nth_error_In. exact E.
Qed.

Lemma handlers_frame : forall k h node d1 d2,
  dict_get k handlers = Some h ->
  (forall a, In a (inputs node) -> dict_get a d1 = dict_get a d2) ->
  h node d1 = h node d2.
Proof.
  intros k h node d1 d2 H Hagree.
  assert (Hi : forall i, input_at i node d1 = input_at i node d2).
  { intros i. apply input_at_agree. exact Hagree. }
  assert (Hl : mapM (fun a => dict_getitem a d1) (inputs node) =
               mapM (fun a => dict_getitem a d2) (inputs node)).
  { apply mapM_ext_in. intros a Ha. unfold dict_getitem. rewrite (Hagree a Ha).
    reflexivity. }
  unfold handlers in H. cbn [dict_get] in H.
  repeat match type of H with
         | context [if ?b then _ else _] =>
             destruct b;
             [inversion H; subst;
              unfold handle_trivial, handle_p_relu, handle_pad,
                handle_random_normal_like, handle_random_uniform_like,
                handle_reshape, handle_selu, handle_slice, handle_split,
                handle_sub, handle_sum;
              rewrite ?Hi, ?Hl; reflexivity|]
         end.
  discriminate.
Qed.

(** X16: the translation reads input_dict only at the node's input names:
    two dictionaries that bind every input name of the node alike give the
    same result, whatever else they bind. *)
Theorem translation_reads_node_inputs :
  forall (node : OnnxNode) (d1 d2 : dict tfval),
  (forall a, In a (inputs node) -> dict_get a d1 = dict_get a d2) ->
  _onnx_node_to_tensorflow_op node d1 = _onnx_node_to_tensorflow_op node d2.
Proof.
  intros node d1 d2 H. unfold _onnx_node_to_tensorflow_op.
  destruct (dict_mem (op_name_to_lower (op_type node)) onnx_tf_op_map).
  - rewrite (handlers_frame "handle_trivial" handle_trivial node d1 d2 eq_refl H).
    reflexivity.
  - destruct (dict_mem _ handlers); [|reflexivity].
    unfold dict_getitem. destruct (dict_get _ handlers) as [h|] eqn:Eh; [|reflexivity].
    cbn [bind]. rewrite (handlers_frame _ h node d1 d2 Eh H). reflexivity.
Qed.

Lemma translation_reads_node_inputs_witness :
  _onnx_node_to_tensorflow_op sub_node two_inputs =
  _onnx_node_to_tensorflow_op sub_node three_inputs.
Proof.
  apply (translation_reads_node_inputs sub_node two_inputs three_inputs).
  intros a [<- | [<- | []]]; reflexivity.
Defined.

Ltac raise_through :=
  repeat match goal with
         | |- exists e, bind ?c _ = Raise e =>
             destruct c; cbn [bind]; [|eexists; reflexivity]
         end;
  try (eexists; reflexivity).

Lemma handlers_need_input : forall l h node input_dict,
  dict_get ("handle_" ++ l)%string handlers = Some h ->
  String.eqb l "sum" = false ->
  dict_get (op_name_to_lower (op_type node)) onnx_tf_op_map = None ->
  inputs node = [] ->
  exists e, h node input_dict = Raise e.
Proof.
  intros l h node input_dict H Hsum Hop Hin.
  unfold handlers in H. cbn [dict_get] in H.
  repeat match type of H with
         | context [if ?b then _ else _] =>
             destruct b eqn:?;
             [inversion H; subst; clear H|]
         end;
    try discriminate;
    try (apply handle_trivial_unknown_op; exact Hop);
    try (unfold handle_p_relu, handle_pad, handle_random_normal_like,
           handle_random_uniform_like, handle_reshape, handle_selu,
           handle_slice, handle_split, handle_sub, input_at, item_at;
         rewrite Hin; cbn [nth_error bind]; raise_through; fail).
  match goal with
  | E : String.eqb ("handle_" ++ l)%string "handle_sum" = true |- _ =>
      apply String.eqb_eq in E; inversion E; subst;
      rewrite String.eqb_refl in Hsum; discriminate
  end.
Qed.

(** X17: every specialized rule other than handle_sum reads the node's
    first input: a node without input names whose operator has a specialized
    rule other than Sum is never translated, the call raises. *)
Theorem translation_needs_an_input :
  forall (node : OnnxNode) (input_dict : dict tfval),
  inputs node = [] ->
  dict_mem (op_name_to_lower (op_type node)) onnx_tf_op_map = false ->
  dict_mem ("handle_" ++ op_name_to_lower (op_type node))%string handlers = true ->
  String.eqb (op_name_to_lower (op_type node)) "sum" = false ->
  exists e, _onnx_node_to_tensorflow_op node input_dict = Raise e.
Proof.
  intros node input_dict Hin Hop Hh Hsum. unfold _onnx_node_to_tensorflow_op.
  rewrite Hop, Hh. unfold dict_mem in Hh, Hop. unfold dict_getitem.
  destruct (dict_get _ handlers) as [h|] eqn:Eh; [|discriminate]. cbn [bind].
  destruct (handlers_need_input _ h node input_dict Eh Hsum) as [e He].
  - destruct (dict_get _ onnx_tf_op_map); [discriminate | reflexivity].
  - exact Hin.
  - exists e. rewrite He. reflexivity.
Qed.

Lemma translation_needs_an_input_witness :
  exists e, _onnx_node_to_tensorflow_op selu_no_input two_inputs = Raise e.
Proof.
  apply (translation_needs_an_input selu_no_input two_inputs); reflexivity.
Defined.

Lemma reshape_fits : forall (p : attrval) (n : nat),
  py_len p = Ok n ->
  Nat.eqb (np_size p) (n / 2 * 2) = true ->
  Nat.even n = true /\ np_size p = n.
Proof.
  intros p n Hlen H. apply Nat.eqb_eq in H.
  assert (He : forall k : nat, (k = k / 2 * 2)%nat -> Nat.even k = true).
  { intros k Hk. apply Nat.even_spec. exists (k / 2)%nat. lia. }
  destruct p; cbn [py_len np_size] in *; inversion Hlen; subst; clear Hlen;
    try (split; [apply He; exact H | reflexivity]).
  exfalso. lia.
Qed.

Lemma reshape_misfit : forall (p : attrval) (n : nat),
  py_len p = Ok n ->
  Nat.odd n = true \/ (exists s, p = PyBytes s) ->
  Nat.eqb (np_size p) (n / 2 * 2) = false.
Proof.
  intros p n Hlen H. destruct (Nat.eqb (np_size p) (n / 2 * 2)) eqn:E; [|reflexivity].
  destruct (reshape_fits p n Hlen E) as [He Hs]. destruct H as [Ho | [s ->]].
  - rewrite <- Nat.negb_even, He in Ho. discriminate.
  - cbn [np_size] in Hs. subst n. apply Nat.eqb_eq in E. cbn [np_size] in E. lia.
Qed.

(** X18: handle_pad looks up "mode", "value" and "paddings" before it reads
    the input, so a node that lacks one of them raises KeyError whatever its
    inputs; a "paddings" value without a length (a number or a tensor)
    raises TypeError; a byte string or a list of odd length, which numpy
    cannot reshape to [n / 2, 2], raises ValueError, again whatever the
    inputs; and when the call returns, "paddings" is a list of even length n
    and the operator is tf.pad of the first input with the paddings
    reshaped to [n / 2, 2], the mode, no name and the value. *)
Theorem handle_pad_attributes : forall (node : OnnxNode) (input_dict : dict tfval),
  (dict_mem "mode" (attrs node) && dict_mem "value" (attrs node)
     && dict_mem "paddings" (attrs node) = false ->
   handle_pad node input_dict = Raise KeyError)
  /\ (forall p, dict_mem "mode" (attrs node) = true ->
        dict_mem "value" (attrs node) = true ->
        dict_get "paddings" (attrs node) = Some p ->
        py_len p = Raise TypeError ->
        handle_pad node input_dict = Raise TypeError)
  /\ (forall p n, dict_mem "mode" (attrs node) = true ->
        dict_mem "value" (attrs node) = true ->
        dict_get "paddings" (attrs node) = Some p ->
        py_len p = Ok n ->
        Nat.odd n = true \/ (exists s, p = PyBytes s) ->
        handle_pad node input_dict = Raise ValueError)
  /\ (forall ops, handle_pad node input_dict = Ok ops ->
        exists x m v p n,
          dict_get "mode" (attrs node) = Some m /\
          dict_get "value" (attrs node) = Some v /\
          dict_get "paddings" (attrs node) = Some p /\
          py_len p = Ok n /\ np_size p = n /\ Nat.even n = true /\
          input_at 0 node input_dict = Ok x /\
          ops = [Call tf_pad
                   [x;
                    Call tf_constant
                      [Call ndarray_astype
                         [Call ndarray_reshape
                            [Call np_array [Py (Obj p)] [];
                             Py (Obj (PyInts [Z.of_nat (n / 2); 2%Z]))] [];
                          Py (PyDType np_int32)] []] [];
                    Py (Obj m); Py PyNone; Py (Obj v)] []]).
Proof.
  intros node input_dict. unfold handle_pad, dict_mem, dict_getitem.
  destruct (dict_get "mode" (attrs node)) as [m|]; cbn [bind andb].
  2:{ repeat split; try reflexivity; intros; discriminate. }
  destruct (dict_get "value" (attrs node)) as [v|]; cbn [bind andb].
  2:{ repeat split; try reflexivity; intros; discriminate. }
  destruct (dict_get "paddings" (attrs node)) as [p|]; cbn [bind andb].
  2:{ repeat split; try reflexivity; intros; discriminate. }
  split; [discriminate|]. split; [|split].
  - intros p' _ _ Hp Hlen. inversion Hp; subst. rewrite Hlen. reflexivity.
  - intros p' n _ _ Hp Hlen Hbad. inversion Hp; subst p'. rewrite Hlen.
    cbn [bind]. rewrite (reshape_misfit p n Hlen Hbad). reflexivity.
  - intros ops. destruct (py_len p) as [n|] eqn:Hn; cbn [bind]; [|discriminate].
    destruct (Nat.eqb (np_size p) (n / 2 * 2)) eqn:Hfit; cbn [bind]; [|discriminate].
    destruct (reshape_fits p n Hn Hfit) as [He Hs].
    destruct (astype_int32_ok p); cbn [bind]; [|discriminate].
    destruct (input_at 0 node input_dict) as [x|]; cbn [bind]; [|discriminate].
    intros H. inversion H; subst ops. exists x, m, v, p, n.
    repeat split; try reflexivity; assumption.
Qed.

Lemma handle_pad_attributes_odd_paddings :
  handle_pad
    (mkOnnxNode "p" "Pad"
       [("mode"%string, PyBytes "constant"); ("value"%string, PyFloat 0);
        ("paddings"%string, PyInts [1%Z; 1%Z; 2%Z])]
       None ["x"%string] ["y"%string]) one_input
  = Raise ValueError.
Proof.
  apply (proj1 (proj2 (proj2 (handle_pad_attributes
           (mkOnnxNode "p" "Pad"
              [("mode"%string, PyBytes "constant"); ("value"%string, PyFloat 0);
               ("paddings"%string, PyInts [1%Z; 1%Z; 2%Z])]
              None ["x"%string] ["y"%string]) one_input)))
         (PyInts [1%Z; 1%Z; 2%Z]) 3%nat);
    try reflexivity.
  left. reflexivity.
Defined.
